(** * key-did-provider-secp256k1: a shallow embedding of [src/index.ts]

    The development follows the source file top to bottom: the codec
    utilities, the JOSE signature converter, the JWS builder, the did:key
    deriver, the two signers and the RPC method table.

    Conventions.
    - A JavaScript string is a [string]; non-ASCII text is its UTF-8 byte
      sequence, so [u8a.fromString s] (UTF-8) is [list_byte_of_string].
      Lengths and key order are those of JavaScript on ASCII text, which is
      what the code measures and sorts (base16 text, header member names).
    - A [Uint8Array] is a [list byte].
    - A JavaScript number that the code uses as an integer is a [Z].
    - A thrown exception or a rejected promise is [Err e]; [await] is the
      bind of the [result] monad.
    - A value that may be [undefined] is an [option]. *)

From Stdlib Require Import ZArith List String Ascii Bool Lia Arith.
From Stdlib Require Import Strings.Byte DecimalString HexString.
From Stdlib Require Import Permutation Sorted.
Import ListNotations.

Local Open Scope string_scope.
Local Open Scope Z_scope.

(** ** Exceptions and the error monad *)

Inductive error : Type :=
| MissingRecoveryParam              (* Error('Signer did not return a recoveryParam') *)
| InvalidSignatureLength (got : nat) (* TypeError('Wrong size for signature. ...') *)
| NotSupportedRecoverable           (* Error('not_supported: ES256K-R not supported ...') *)
| UnsupportedAlgorithm              (* Error('not_supported: Unsupported algorithm ...') *)
| BadKeyFormat (got : nat)          (* Error('bad_key: Invalid private key format. ...') *)
| RPCError (code : Z) (message : string)
| RangeError                        (* String.prototype.repeat, TypedArray.prototype.set *)
| SyntaxError (message : string)    (* the base decoders of uint8arrays *)
| ExternalFailure (message : string). (* a collaborator's promise was rejected *)

Inductive result (A : Type) : Type :=
| Ok (a : A)
| Err (e : error).

Arguments Ok {A} a.
Arguments Err {A} e.

Definition bind {A B : Type} (m : result A) (k : A -> result B) : result B :=
  match m with
  | Ok a => k a
  | Err e => Err e
  end.

Notation "x <- m ;; k" := (bind m (fun x => k))
  (at level 61, m at next level, right associativity).

(** ** Strings *)

Fixpoint repeat_string (s : string) (n : nat) : string :=
  match n with
  | O => ""
  | S n' => s ++ repeat_string s n'
  end.

(** [String.prototype.repeat]: a negative count is a [RangeError]. *)
Definition js_repeat (s : string) (count : Z) : result string :=
  if count <? 0 then Err RangeError else Ok (repeat_string s (Z.to_nat count)).

(** [s.split(sep)] for a one-character separator; the result is never empty. *)
Fixpoint split (sep : ascii) (s : string) : list string :=
  match s with
  | EmptyString => [""]
  | String c rest =>
      if Ascii.eqb c sep then "" :: split sep rest
      else match split sep rest with
           | part :: parts => String c part :: parts
           | [] => [String c ""]
           end
  end.

Fixpoint count_char (c : ascii) (s : string) : nat :=
  match s with
  | EmptyString => O
  | String c' rest => (if Ascii.eqb c' c then 1 else 0)%nat + count_char c rest
  end.

Fixpoint string_forallb (p : ascii -> bool) (s : string) : bool :=
  match s with
  | EmptyString => true
  | String c rest => p c && string_forallb p rest
  end.

Fixpoint string_map (f : ascii -> ascii) (s : string) : string :=
  match s with
  | EmptyString => ""
  | String c rest => String (f c) (string_map f rest)
  end.

Fixpoint string_filter (p : ascii -> bool) (s : string) : string :=
  match s with
  | EmptyString => ""
  | String c rest => if p c then String c (string_filter p rest) else string_filter p rest
  end.

(** ** [leftpad] *)

(** [data.length] is the number of characters of ASCII text, which base16
    text is; on other text it counts UTF-16 units where [String.length]
    counts bytes. *)
Definition leftpad (data : string) (size : Z) : result string :=
  if Z.of_nat (String.length data) =? size then Ok data
  else
    zeros <- js_repeat "0" (size - Z.of_nat (String.length data)) ;;
    Ok (zeros ++ data).

(** The default value of [leftpad]'s second parameter. *)
Definition leftpad_default_size : Z := 64.

(** ** [toGeneralJWS] *)

Record JWSSignature : Type := {
  sig_protected : option string;
  sig_signature : option string
}.

Record GeneralJWS : Type := {
  jws_payload : option string;
  jws_signatures : list JWSSignature
}.

(** The array destructuring [[protectedHeader, payload, signature] = jws.split('.')]
    binds a missing element to [undefined] and ignores elements past the third. *)
Definition toGeneralJWS (jws : string) : GeneralJWS :=
  let parts := split "." jws in
  {| jws_payload := nth_error parts 1;
     jws_signatures :=
       [ {| sig_protected := nth_error parts 0;
            sig_signature := nth_error parts 2 |} ] |}.

(** ** Bytes and typed arrays *)

Definition u8 (b : byte) : Z := Z.of_N (Byte.to_N b).

(** Storing a number into a [Uint8Array] element keeps it modulo 256. *)
Definition to_u8 (z : Z) : byte :=
  match Byte.of_N (Z.to_N (z mod 256)) with
  | Some b => b
  | None => x00
  end.

(** [new Uint8Array(n)] *)
Definition ta_alloc (n : nat) : list byte := repeat x00 n.

(** [target.set(source, offset)]: a [RangeError] when the source does not fit. *)
Definition ta_set (target source : list byte) (offset : nat) : result (list byte) :=
  if (List.length target <? offset + List.length source)%nat then Err RangeError
  else Ok (firstn offset target ++ source
             ++ skipn (offset + List.length source) target)%list.

(** [target[i] = v]: ignored when [i] is out of range. *)
Fixpoint ta_store (target : list byte) (i : nat) (v : byte) : list byte :=
  match target, i with
  | [], _ => []
  | _ :: rest, O => v :: rest
  | b :: rest, S i' => b :: ta_store rest i' v
  end.

(** [b.slice(from, to)] for [0 <= from <= to]. *)
Definition ta_slice (b : list byte) (from to : nat) : list byte :=
  firstn (to - from) (skipn from b).

(** ** The base encodings of [uint8arrays]

    [u8a.toString(b, enc)] and [u8a.fromString(s, enc)] are library calls; they
    are modelled by the RFC 4648 alphabets, written without padding and read
    with trailing padding ignored (base16 lowercase, base64url), and by the
    base-x algorithm over the Bitcoin alphabet (base58btc), which is what the
    library implements. *)

Definition alphabet_char (alphabet : string) (v : Z) : ascii :=
  match String.get (Z.to_nat v) alphabet with
  | Some c => c
  | None => "000"%char
  end.

Fixpoint alphabet_index (alphabet : string) (c : ascii) : option Z :=
  match alphabet with
  | EmptyString => None
  | String a rest =>
      if Ascii.eqb a c then Some 0 else option_map Z.succ (alphabet_index rest c)
  end.

Definition base16_alphabet : string := "0123456789abcdef".

Definition base64url_alphabet : string :=
  "ABCDEFGHIJKLMNOPQRSTUVWXYZabcdefghijklmnopqrstuvwxyz0123456789-_".

Definition base58btc_alphabet : string :=
  "123456789ABCDEFGHJKLMNPQRSTUVWXYZabcdefghijkmnopqrstuvwxyz".

Definition hex_char : Z -> ascii := alphabet_char base16_alphabet.
Definition hex_value : ascii -> option Z := alphabet_index base16_alphabet.
Definition b64_char : Z -> ascii := alphabet_char base64url_alphabet.
Definition b64_value : ascii -> option Z := alphabet_index base64url_alphabet.
Definition b58_char : Z -> ascii := alphabet_char base58btc_alphabet.

Definition unexpected_end : error := SyntaxError "Unexpected end of data".

Fixpoint base16_encode (b : list byte) : string :=
  match b with
  | [] => ""
  | x :: rest =>
      String (hex_char (u8 x / 16)) (String (hex_char (u8 x mod 16)) (base16_encode rest))
  end.

(** The decoders drop the trailing [=] characters before they read. *)
Fixpoint strip_padding (s : string) : string :=
  match s with
  | EmptyString => ""
  | String c rest =>
      match strip_padding rest with
      | EmptyString => if Ascii.eqb c "=" then "" else String c ""
      | kept => String c kept
      end
  end.

Fixpoint base16_read (s : string) : result (list byte) :=
  match s with
  | EmptyString => Ok []
  | String c EmptyString =>
      match hex_value c with
      | Some _ => Err unexpected_end
      | None => Err (SyntaxError "Non-base16 character")
      end
  | String c1 (String c2 rest) =>
      match hex_value c1, hex_value c2 with
      | Some hi, Some lo =>
          bytes <- base16_read rest ;;
          Ok (to_u8 (hi * 16 + lo) :: bytes)
      | _, _ => Err (SyntaxError "Non-base16 character")
      end
  end.

Definition base16_decode (s : string) : result (list byte) :=
  base16_read (strip_padding s).

Fixpoint base64url_encode (b : list byte) : string :=
  match b with
  | [] => ""
  | [x] =>
      String (b64_char (u8 x / 4)) (String (b64_char (u8 x mod 4 * 16)) "")
  | [x; y] =>
      String (b64_char (u8 x / 4))
        (String (b64_char (u8 x mod 4 * 16 + u8 y / 16))
           (String (b64_char (u8 y mod 16 * 4)) ""))
  | x :: y :: z :: rest =>
      String (b64_char (u8 x / 4))
        (String (b64_char (u8 x mod 4 * 16 + u8 y / 16))
           (String (b64_char (u8 y mod 16 * 4 + u8 z / 64))
              (String (b64_char (u8 z mod 64)) (base64url_encode rest))))
  end.

Fixpoint b64_values (s : string) : result (list Z) :=
  match s with
  | EmptyString => Ok []
  | String c rest =>
      match b64_value c with
      | Some v => vs <- b64_values rest ;; Ok (v :: vs)
      | None => Err (SyntaxError "Non-base64url character")
      end
  end.

Fixpoint b64_bytes (vs : list Z) : result (list byte) :=
  match vs with
  | [] => Ok []
  | [_] => Err unexpected_end
  | [v1; v2] =>
      if v2 mod 16 =? 0 then Ok [to_u8 (v1 * 4 + v2 / 16)] else Err unexpected_end
  | [v1; v2; v3] =>
      if v3 mod 4 =? 0
      then Ok [to_u8 (v1 * 4 + v2 / 16); to_u8 (v2 mod 16 * 16 + v3 / 4)]
      else Err unexpected_end
  | v1 :: v2 :: v3 :: v4 :: rest =>
      bytes <- b64_bytes rest ;;
      Ok (to_u8 (v1 * 4 + v2 / 16)
            :: to_u8 (v2 mod 16 * 16 + v3 / 4)
            :: to_u8 (v3 mod 4 * 64 + v4) :: bytes)
  end.

Definition base64url_decode (s : string) : result (list byte) :=
  vs <- b64_values (strip_padding s) ;; b64_bytes vs.

(** base-x: the digits are kept least significant first; one step computes
    [b58 = b58 * 256 + carry]. *)
Fixpoint b58_carry (fuel : nat) (carry : Z) : list Z :=
  match fuel with
  | O => []
  | S fuel' =>
      if carry =? 0 then [] else carry mod 58 :: b58_carry fuel' (carry / 58)
  end.

Fixpoint b58_muladd (digits : list Z) (carry : Z) : list Z :=
  match digits with
  | [] => b58_carry (Z.to_nat carry) carry
  | d :: rest =>
      let v := carry + 256 * d in
      v mod 58 :: b58_muladd rest (v / 58)
  end.

Fixpoint leading_zero_bytes (b : list byte) : nat :=
  match b with
  | x00 :: rest => S (leading_zero_bytes rest)
  | _ => O
  end.

Fixpoint skip_zero_digits (ds : list Z) : list Z :=
  match ds with
  | d :: rest => if d =? 0 then skip_zero_digits rest else ds
  | [] => []
  end.

Definition base58btc_encode (source : list byte) : string :=
  let zeroes := leading_zero_bytes source in
  let b58 := fold_left (fun digits x => b58_muladd digits (u8 x))
                       (skipn zeroes source) [] in
  repeat_string "1" zeroes
    ++ string_of_list_ascii (map b58_char (skip_zero_digits (rev b58))).

(** ** Codec utilities of the source *)

Definition bytesToHex (b : list byte) : string := base16_encode b.

(** [s.replace(/\+/g, '-').replace(/\//g, '_').replace(/=/g, '')] *)
Definition base64_to_base64url (s : string) : string :=
  string_filter (fun c => negb (Ascii.eqb c "="))
    (string_map (fun c => if Ascii.eqb c "/" then "_"%char else c)
       (string_map (fun c => if Ascii.eqb c "+" then "-"%char else c) s)).

Definition base64ToBytes (s : string) : result (list byte) :=
  base64url_decode (base64_to_base64url s).

Definition bytesToBase64url (b : list byte) : string := base64url_encode b.

Definition encodeBase64url (s : string) : string :=
  bytesToBase64url (list_byte_of_string s).

(** ** JSON values and plain objects

    An object keeps its members in insertion order, as a JavaScript object
    with string keys does.  Numbers are the integers. *)

#[local] Unset Elimination Schemes.
Inductive json : Type :=
| JNull
| JBool (b : bool)
| JNum (n : Z)
| JStr (s : string)
| JArr (items : list json)
| JObj (members : list (string * json)).
#[local] Set Elimination Schemes.

Definition object : Type := list (string * json).

(** [obj[key]] *)
Fixpoint obj_get (key : string) (obj : object) : option json :=
  match obj with
  | [] => None
  | (k, v) :: rest => if String.eqb k key then Some v else obj_get key rest
  end.

(** [obj[key] = value]: an existing member keeps its place. *)
Fixpoint obj_set (key : string) (value : json) (obj : object) : object :=
  match obj with
  | [] => [(key, value)]
  | (k, v) :: rest =>
      if String.eqb k key then (k, value) :: rest
      else (k, v) :: obj_set key value rest
  end.

(** [Object.assign(target, source)] *)
Definition Object_assign (target source : object) : object :=
  fold_left (fun acc kv => obj_set (fst kv) (snd kv) acc) source target.

(** The truthiness test of [!value]; [None] is [undefined]. *)
Definition js_falsy (v : option json) : bool :=
  match v with
  | None => true
  | Some JNull => true
  | Some (JBool b) => negb b
  | Some (JNum n) => n =? 0
  | Some (JStr s) => String.eqb s ""
  | Some (JArr _) => false
  | Some (JObj _) => false
  end.

Definition decimal (n : Z) : string :=
  DecimalString.NilZero.string_of_int (Z.to_int n).

Definition json_escape_char (c : ascii) : string :=
  if Ascii.eqb c "034" then String "\" (String "034" "")
  else if Ascii.eqb c "\" then "\\"
  else if Ascii.eqb c "008" then "\b"
  else if Ascii.eqb c "009" then "\t"
  else if Ascii.eqb c "010" then "\n"
  else if Ascii.eqb c "012" then "\f"
  else if Ascii.eqb c "013" then "\r"
  else if (nat_of_ascii c <? 32)%nat
       then "\u00" ++ String (hex_char (Z.of_nat (nat_of_ascii c) / 16))
                        (String (hex_char (Z.of_nat (nat_of_ascii c) mod 16)) "")
       else String c "".

Fixpoint json_escape (s : string) : string :=
  match s with
  | EmptyString => ""
  | String c rest => json_escape_char c ++ json_escape rest
  end.

Definition json_quote (s : string) : string :=
  String "034" (json_escape s ++ String "034" "").

(** [JSON.stringify]; a [JNum] is an integer printed in decimal, as the
    code prints the integers below [2^53], fractions and exponent notation
    being outside the model. *)
Fixpoint JSON_stringify (j : json) : string :=
  match j with
  | JNull => "null"
  | JBool true => "true"
  | JBool false => "false"
  | JNum n => decimal n
  | JStr s => json_quote s
  | JArr items => "[" ++ String.concat "," (map JSON_stringify items) ++ "]"
  | JObj members =>
      "{" ++ String.concat ","
               (map (fun kv => json_quote (fst kv) ++ ":" ++ JSON_stringify (snd kv))
                    members)
          ++ "}"
  end.

(** Insertion of a member into a key-sorted object, before the first member
    whose key is not smaller. *)
Fixpoint insert_member (kv : string * json) (obj : object) : object :=
  match obj with
  | [] => [kv]
  | kv' :: rest =>
      if String.leb (fst kv) (fst kv') then kv :: kv' :: rest
      else kv' :: insert_member kv rest
  end.

Definition sort_members (obj : object) : object :=
  fold_right insert_member [] obj.

(** [JSON.parse(stringify(obj))] with fast-json-stable-stringify: the same
    value with the members of every object in key order.  Member names that
    are array indices, which [JSON.parse] lists first and in numeric order,
    are outside the model: see [index_free]. *)
Fixpoint stable (j : json) : json :=
  match j with
  | JArr items => JArr (map stable items)
  | JObj members =>
      JObj (sort_members (map (fun kv => (fst kv, stable (snd kv))) members))
  | _ => j
  end.

Definition toStableObject (obj : object) : object :=
  sort_members (map (fun kv => (fst kv, stable (snd kv))) obj).

Definition encodeSection (data : json) : string :=
  encodeBase64url (JSON_stringify data).

(** ** The JOSE signature converter *)

(** [recoveryParam?: number | null] *)
Inductive RecoveryParam : Type :=
| RPUndefined
| RPNull
| RPNumber (n : Z).

Record EcdsaSignature : Type := {
  r : string;
  s : string;
  recoveryParam : RecoveryParam
}.

(** The number stored by [jose[64] = <number>recoveryParam]. *)
Definition recoveryParam_number (rp : RecoveryParam) : Z :=
  match rp with
  | RPNumber n => n
  | _ => 0
  end.

Definition toJose_bytes (sig : EcdsaSignature) (recoverable : bool)
  : result (list byte) :=
  let jose := ta_alloc (if recoverable then 65 else 64) in
  rbytes <- base16_decode (r sig) ;;
  jose <- ta_set jose rbytes 0 ;;
  sbytes <- base16_decode (s sig) ;;
  jose <- ta_set jose sbytes 32 ;;
  if recoverable then
    match recoveryParam sig with
    | RPUndefined => Err MissingRecoveryParam
    | rp => Ok (ta_store jose 64 (to_u8 (recoveryParam_number rp)))
    end
  else Ok jose.

Definition toJose (sig : EcdsaSignature) (recoverable : bool) : result string :=
  jose <- toJose_bytes sig recoverable ;;
  Ok (bytesToBase64url jose).

Definition fromJose (signature : string) : result EcdsaSignature :=
  signatureBytes <- base64ToBytes signature ;;
  if ((List.length signatureBytes <? 64) || (65 <? List.length signatureBytes))%nat
  then Err (InvalidSignatureLength (List.length signatureBytes))
  else
    Ok {| r := bytesToHex (ta_slice signatureBytes 0 32);
          s := bytesToHex (ta_slice signatureBytes 32 64);
          recoveryParam :=
            if (List.length signatureBytes =? 65)%nat
            then match nth_error signatureBytes 64 with
                 | Some b => RPNumber (u8 b)
                 | None => RPUndefined
                 end
            else RPUndefined |}.

(** ** External collaborators

    The hash, the curve library and the remote signing service are used
    through their interfaces only. *)

Record LitActionSignature : Type := {
  lit_r : string;
  lit_s : string;
  lit_recid : Z
}.

Class Collaborators : Type := {
  (** [hash] of @stablelib/sha256 *)
  hash : list byte -> list byte;
  (** the big numbers of elliptic and their [toString('hex')] *)
  BN : Type;
  BN_toString_hex : BN -> string;
  (** [ec.keyFromPrivate(privateKey).sign(digest)], giving [r], [s] and
      [recoveryParam] *)
  keyPair_sign : list byte -> list byte -> BN * BN * RecoveryParam;
  (** [litNodeClient.executeJs] on the signing action for [toSign], giving
      the [sig1] entry of the response *)
  lit_executeJs : list byte -> result LitActionSignature
}.

(** ** Signers *)

(** The argument of a signer: [string | Uint8Array]. *)
Inductive SignData : Type :=
| DataString (text : string)
| DataBytes (bytes : list byte).

(** The value a signer resolves to: [EcdsaSignature | string]. *)
Inductive SignerOutput : Type :=
| Structured (sig : EcdsaSignature)
| PreEncoded (jose : string).

Definition Signer : Type := SignData -> result SignerOutput.

Definition SignerAlgorithm : Type := string -> Signer -> result string.

(** [recoverable] is the truthiness of the optional flag. *)
Definition ES256KSignerAlg (recoverable : bool) : SignerAlgorithm :=
  fun payload signer =>
    signature <- signer (DataString payload) ;;
    match signature with
    | Structured sig => toJose sig recoverable
    | PreEncoded jose =>
        if recoverable then
          parsed <- fromJose jose ;;
          match recoveryParam parsed with
          | RPUndefined => Err NotSupportedRecoverable
          | _ => Ok jose
          end
        else Ok jose
    end.

(** The table [algorithms] has the single entry [ES256K: ES256KSignerAlg()];
    [alg] is the header member, a string in a well-typed header.  The names
    every object inherits, for which the lookup finds a member of
    [Object.prototype], are outside the model: see [inherited_names]. *)
Definition SignerAlg (alg : option json) : result SignerAlgorithm :=
  match alg with
  | Some (JStr name) =>
      if String.eqb name "ES256K" then Ok (ES256KSignerAlg false)
      else Err UnsupportedAlgorithm
  | _ => Err UnsupportedAlgorithm
  end.

Section WithCollaborators.

Context {collaborators : Collaborators}.

Definition sha256 (payload : SignData) : list byte :=
  match payload with
  | DataString text => hash (list_byte_of_string text)
  | DataBytes bytes => hash bytes
  end.

(** The closure [ES256KSigner] returns. *)
Definition ES256KSigner_sign (privateKey : list byte) (recoverable : bool)
  : Signer :=
  fun data =>
    let '(r, s, recoveryParam) := keyPair_sign privateKey (sha256 data) in
    r <- leftpad (BN_toString_hex r) leftpad_default_size ;;
    s <- leftpad (BN_toString_hex s) leftpad_default_size ;;
    jose <- toJose {| r := r; s := s; recoveryParam := recoveryParam |}
                   recoverable ;;
    Ok (PreEncoded jose).

Definition ES256KSigner (privateKey : list byte) (recoverable : bool)
  : result Signer :=
  if negb (List.length privateKey =? 32)%nat
  then Err (BadKeyFormat (List.length privateKey))
  else Ok (ES256KSigner_sign privateKey recoverable).

(** Authentication, connection and [executeJs] are one call of the service;
    a [Uint8Array] argument is never [undefined], so the guard does not
    throw. *)
Definition litActionSignAndGetSignature (dataToSign : list byte)
  : result LitActionSignature :=
  lit_executeJs dataToSign.

Definition ES256KSignerWithLit : Signer :=
  let recoverable := false in
  fun data =>
    singature <- litActionSignAndGetSignature (sha256 data) ;;
    jose <- toJose {| r := lit_r singature;
                      s := lit_s singature;
                      recoveryParam := RPNumber (lit_recid singature) |}
                   recoverable ;;
    Ok (PreEncoded jose).

End WithCollaborators.

(** ** The JWS builder *)

(** [payload] is a [JStr] when [typeof payload === 'string']. *)
Definition createJWS (payload : json) (signer : Signer) (header : object)
  : result string :=
  let header :=
    if js_falsy (obj_get "alg" header)
    then obj_set "alg" (JStr "ES256K") header else header in
  let encodedPayload :=
    match payload with
    | JStr text => text
    | _ => encodeSection payload
    end in
  let signingInput := encodeSection (JObj header) ++ "." ++ encodedPayload in
  jwtSigner <- SignerAlg (obj_get "alg" header) ;;
  signature <- jwtSigner signingInput signer ;;
  Ok (signingInput ++ "." ++ signature).

(** ** The did:key deriver *)

Definition encodeDID (publicKey : list byte) : result string :=
  let bytes := ta_alloc (List.length publicKey + 2) in
  let bytes := ta_store bytes 0 xe7 in
  let bytes := ta_store bytes 1 x01 in
  bytes <- ta_set bytes publicKey 2 ;;
  Ok ("did:key:z" ++ base58btc_encode bytes).

(** ** The RPC method table of the local provider *)

Record Context : Type := {
  did : string;
  secretKey : list byte
}.

Record CreateJWSParams : Type := {
  params_did : string;
  params_payload : json;
  params_protected : option object
}.

Record CreateJWSResult : Type := {
  jws : GeneralJWS
}.

(** The text of [`${part}`]: an absent array element prints as [undefined]. *)
Definition template_text (part : option string) : string :=
  match part with
  | Some text => text
  | None => "undefined"
  end.

Section Provider.

Context {collaborators : Collaborators}.

Definition sign (payload : json) (did : string) (secretKey : list byte)
  (protectedHeader : option object) : result string :=
  let protectedHeader :=
    match protectedHeader with
    | Some h => h
    | None => []
    end in
  let kid := did ++ "#" ++ template_text (nth_error (split ":" did) 2) in
  signer <- ES256KSigner secretKey false ;;
  let header :=
    toStableObject
      (Object_assign protectedHeader
         [("kid", JStr kid); ("alg", JStr "ES256K")]) in
  createJWS (match payload with
             | JStr _ => payload
             | other => stable other
             end)
            signer header.

Definition did_createJWS (context : Context) (params : CreateJWSParams)
  : result CreateJWSResult :=
  let requestDid := hd "" (split "#" (params_did params)) in
  if negb (String.eqb requestDid (did context))
  then Err (RPCError 4100 ("Unknown DID: " ++ did context))
  else
    jws <- sign (params_payload params) (did context) (secretKey context)
                (params_protected params) ;;
    Ok {| jws := toGeneralJWS jws |}.

End Provider.

(** ** Predicates used in the statements *)

(** A character of the lowercase base16 alphabet. *)
Definition is_hex (c : ascii) : bool :=
  match hex_value c with Some _ => true | None => false end.

(** A character of the base64url alphabet. *)
Definition is_b64 (c : ascii) : bool :=
  match b64_value c with Some _ => true | None => false end.


(** The bytes [toJose] builds from decoded components of at most 32 bytes:
    each component starts its 32-byte field, the rest of the field keeps the
    zeros of the fresh array. *)
Definition jose_fields (rbytes sbytes : list byte) : list byte :=
  (rbytes ++ repeat x00 (32 - List.length rbytes)
     ++ sbytes ++ repeat x00 (32 - List.length sbytes))%list.


(** The number a list of base58 digits stands for, least significant first. *)
Fixpoint b58_value (digits : list Z) : Z :=
  match digits with
  | [] => 0
  | d :: rest => d + 58 * b58_value rest
  end.

Definition in_range (lo hi c : ascii) : bool :=
  (Ascii.leb lo c && Ascii.leb c hi)%bool.

(** The character class [[1-9A-HJ-NP-Za-km-z]]. *)
Definition is_base58btc_char (c : ascii) : bool :=
  in_range "1" "9" c || in_range "A" "H" c || in_range "J" "N" c
  || in_range "P" "Z" c || in_range "a" "k" c || in_range "m" "z" c.

Fixpoint strip_prefix (prefix text : string) : option string :=
  match prefix, text with
  | EmptyString, _ => Some text
  | String p prefix', String c text' =>
      if Ascii.eqb p c then strip_prefix prefix' text' else None
  | String _ _, EmptyString => None
  end.

(** The test of the regular expression [^did:key:z[1-9A-HJ-NP-Za-km-z]+$]. *)
Definition matches_did_key (text : string) : bool :=
  match strip_prefix "did:key:z" text with
  | Some id => negb (String.eqb id "") && string_forallb is_base58btc_char id
  | None => false
  end.


(** Digits of base 58. *)
Definition b58_digits (digits : list Z) : Prop :=
  Forall (fun d => 0 <= d < 58) digits.


(** ** Fixed-response collaborators

    Stand-ins for the hash, the curve library and the signing service, used
    to evaluate the signers and the provider on concrete inputs: the digest
    is the message itself, big numbers are naturals printed in lowercase
    base16 without leading zeros, and every signature is [(r, s) = (1, 255)]
    with recovery param 0. *)

Definition N_toString_hex (n : N) : string :=
  match n with
  | N0 => "0"
  | Npos p => HexString.Raw.of_pos p ""
  end.

Definition fixed_collaborators : Collaborators :=
  {| hash := fun data => data;
     BN := N;
     BN_toString_hex := N_toString_hex;
     keyPair_sign := fun _ _ => (1%N, 255%N, RPNumber 0);
     lit_executeJs := fun _ =>
       Ok {| lit_r := "01"; lit_s := "ff"; lit_recid := 1 |} |}.


(** A signer that resolves to one fixed structured signature. *)
Definition fixed_signer : Signer :=
  fun _ => Ok (Structured {| r := "01"; s := "ff"; recoveryParam := RPUndefined |}).


(** ** [hexToBytes] *)

(** [String.prototype.toLowerCase] on ASCII text. *)
Definition to_lower_ascii (c : ascii) : ascii :=
  if in_range "A" "Z" c then ascii_of_nat (nat_of_ascii c + 32) else c.

Definition toLowerCase (s : string) : string := string_map to_lower_ascii s.

Definition hexToBytes (s : string) : result (list byte) :=
  let input :=
    match strip_prefix "0x" s with
    | Some rest => rest
    | None => s
    end in
  base16_decode (toLowerCase input).

(** ** The second JWS builder and the remote provider's methods *)

Definition createJWS2 (payload : json) (signer : Signer) (header : object)
  : result string :=
  let header :=
    if js_falsy (obj_get "alg" header)
    then obj_set "alg" (JStr "ES256K") header else header in
  let encodedPayload :=
    match payload with
    | JStr text => text
    | _ => encodeSection payload
    end in
  let signingInput := encodeSection (JObj header) ++ "." ++ encodedPayload in
  jwtSigner <- SignerAlg (obj_get "alg" header) ;;
  signature <- jwtSigner signingInput signer ;;
  Ok (signingInput ++ "." ++ signature).

(** [AuthParams]; a member that the request does not carry is [undefined]. *)
Record AuthParams : Type := {
  auth_aud : option json;
  auth_nonce : option json;
  auth_paths : option json
}.

(** The members of an object literal that [JSON.stringify] keeps: those
    whose value is not [undefined]. *)
Definition defined_members (members : list (string * option json)) : object :=
  flat_map (fun kv => match snd kv with
                      | Some value => [(fst kv, value)]
                      | None => []
                      end) members.

(** The payload of [did_authenticate]; [now] is [Date.now()]. *)
Definition auth_payload (now : Z) (did : string) (params : AuthParams) : json :=
  JObj (defined_members
          [("did", Some (JStr did));
           ("aud", auth_aud params);
           ("nonce", auth_nonce params);
           ("paths", auth_paths params);
           ("exp", Some (JNum (now / 1000 + 600)))]).

Section ProviderMethods.

Context {collaborators : Collaborators}.

Definition did_authenticate (now : Z) (context : Context) (params : AuthParams)
  : result GeneralJWS :=
  response <- sign (auth_payload now (did context) params)
                   (did context) (secretKey context) None ;;
  Ok (toGeneralJWS response).

Definition signWithLit (payload : json) (did : string)
  (protectedHeader : option object) : result string :=
  let protectedHeader :=
    match protectedHeader with
    | Some h => h
    | None => []
    end in
  let kid := did ++ "#" ++ template_text (nth_error (split ":" did) 2) in
  let signer := ES256KSignerWithLit in
  let header :=
    toStableObject
      (Object_assign protectedHeader
         [("kid", JStr kid); ("alg", JStr "ES256K")]) in
  createJWS2 (match payload with
              | JStr _ => payload
              | other => stable other
              end)
             signer header.

(** [didMethodsWithLit.did_authenticate]; its context is the DID alone. *)
Definition did_authenticate_WithLit (now : Z) (did : string)
  (params : AuthParams) : result GeneralJWS :=
  response <- signWithLit (auth_payload now did params) did None ;;
  Ok (toGeneralJWS response).

End ProviderMethods.

(** ** Provider construction

    The public-key operations of the curve library and the public key the
    signing service reports, through their interfaces. *)

Class KeyCollaborators : Type := {
  (** [ec.keyFromPrivate(seed).getPublic(true, 'array')] *)
  keyFromPrivate_getPublic : list byte -> result (list byte);
  (** [ec.keyFromPublic(hex, 'hex').getPublic(true, 'array')] *)
  keyFromPublic_getPublic : string -> result (list byte);
  (** the [sig1.publicKey] of the service's response for [toSign] *)
  lit_publicKey : list byte -> result string
}.

Section Construction.

Context {keys : KeyCollaborators}.

(** The context the constructor of [Secp256k1Provider] binds its handler
    to. *)
Definition Secp256k1Provider (seed : list byte) : result Context :=
  publicKey <- keyFromPrivate_getPublic seed ;;
  did <- encodeDID publicKey ;;
  Ok {| did := did; secretKey := seed |}.

Definition encodeDIDWithLit : result string :=
  PKP_PUBLIC_KEY <- lit_publicKey [] ;;
  pubBytes <- keyFromPublic_getPublic PKP_PUBLIC_KEY ;;
  let bytes := ta_alloc (List.length pubBytes + 2) in
  let bytes := ta_store bytes 0 xe7 in
  let bytes := ta_store bytes 1 x01 in
  bytes <- ta_set bytes pubBytes 2 ;;
  Ok ("did:key:z" ++ base58btc_encode bytes).

End Construction.

(** ** Notions used in the further statements *)

(** Standard base64 text for base64url text. *)
Definition base64url_to_base64 (s : string) : string :=
  string_map (fun c => if Ascii.eqb c "-" then "+"%char
                       else if Ascii.eqb c "_" then "/"%char else c) s.

(** The big-endian number of a byte sequence. *)
Fixpoint be_value (bytes : list byte) : Z :=
  match bytes with
  | [] => 0
  | x :: rest => u8 x * 256 ^ Z.of_nat (List.length rest) + be_value rest
  end.

(** The order of the member names. *)
Definition key_le (a b : string * json) : Prop :=
  String.leb (fst a) (fst b) = true.

(** The own and inherited property names of the table [algorithms] other
    than [ES256K]: looking one of them up finds a member of
    [Object.prototype], not [undefined]. *)
Definition inherited_names : list string :=
  ["constructor"; "toString"; "toLocaleString"; "valueOf"; "hasOwnProperty";
   "isPrototypeOf"; "propertyIsEnumerable"; "__proto__"; "__defineGetter__";
   "__defineSetter__"; "__lookupGetter__"; "__lookupSetter__"].


(** A member name that JavaScript treats as an array index (decimal digits
    without a leading zero): objects list such members first and in numeric
    order, whatever order they were written in. *)
Definition is_array_index (name : string) : bool :=
  match name with
  | EmptyString => false
  | String c rest =>
      string_forallb (in_range "0" "9") name
      && (negb (Ascii.eqb c "0") || String.eqb rest "")
  end.

(** No object in the value, at any depth, has an array index for a member
    name. *)
Fixpoint index_free (j : json) : bool :=
  match j with
  | JArr items => forallb index_free items
  | JObj members =>
      forallb (fun kv => negb (is_array_index (fst kv)) && index_free (snd kv))
              members
  | _ => true
  end.


(** The protected header [sign] and [signWithLit] build. *)
Definition sign_header (did : string) (protectedHeader : option object)
  : object :=
  toStableObject
    (Object_assign
       match protectedHeader with
       | Some overrides => overrides
       | None => []
       end
       [("kid", JStr (did ++ "#"
                        ++ template_text (nth_error (split ":" did) 2)));
        ("alg", JStr "ES256K")]).


(** Fixed responses of the key operations: every key is the compressed
    point [02 11 ... 11]. *)
Definition fixed_keys : KeyCollaborators :=
  {| keyFromPrivate_getPublic := fun _ => Ok (x02 :: repeat x11 32);
     keyFromPublic_getPublic := fun _ => Ok (x02 :: repeat x11 32);
     lit_publicKey := fun _ => Ok "04" |}.

(** * Properties *)

(** ** Strings *)

Lemma append_assoc (a b c : string) : (a ++ b) ++ c = a ++ (b ++ c).
Proof. induction a as [|x a IH]; simpl; [reflexivity | now rewrite IH]. Qed.

Lemma length_append (a b : string) :
  String.length (a ++ b) = (String.length a + String.length b)%nat.
Proof. induction a as [|x a IH]; simpl; [reflexivity | now rewrite IH]. Qed.

Lemma length_repeat_char (c : ascii) (n : nat) :
  String.length (repeat_string (String c "") n) = n.
Proof. induction n as [|n IH]; simpl; [reflexivity | now rewrite IH]. Qed.

Lemma string_forallb_append (p : ascii -> bool) (a b : string) :
  string_forallb p (a ++ b) = string_forallb p a && string_forallb p b.
Proof.
  induction a as [|x a IH]; simpl; [reflexivity|].
  now rewrite IH, andb_assoc.
Qed.

Lemma string_forallb_impl (p q : ascii -> bool) (a : string) :
  (forall c, p c = true -> q c = true) ->
  string_forallb p a = true -> string_forallb q a = true.
Proof.
  intros Hpq. induction a as [|x a IH]; simpl; [reflexivity|].
  intros H. apply andb_true_iff in H as [Hx Ha].
  now rewrite (Hpq _ Hx), (IH Ha).
Qed.

Lemma count_char_append (c : ascii) (a b : string) :
  count_char c (a ++ b) = (count_char c a + count_char c b)%nat.
Proof. induction a as [|x a IH]; simpl; [reflexivity | rewrite IH; lia]. Qed.

Lemma count_char_absent (c : ascii) (a : string) :
  string_forallb (fun x => negb (Ascii.eqb x c)) a = true -> count_char c a = O.
Proof.
  induction a as [|x a IH]; simpl; [reflexivity|].
  intros H. apply andb_true_iff in H as [Hx Ha].
  destruct (Ascii.eqb x c); [discriminate | now rewrite (IH Ha)].
Qed.

Lemma split_nonempty (sep : ascii) (a : string) : split sep a <> [].
Proof.
  induction a as [|x a IH]; simpl; [discriminate|].
  destruct (Ascii.eqb x sep); [discriminate|].
  destruct (split sep a); [contradiction | discriminate].
Qed.

Lemma split_length (sep : ascii) (a : string) :
  List.length (split sep a) = S (count_char sep a).
Proof.
  induction a as [|x a IH]; simpl; [reflexivity|].
  destruct (Ascii.eqb x sep); simpl; [now rewrite IH|].
  destruct (split sep a) eqn:E; simpl in *; [discriminate | exact IH].
Qed.

Lemma split_append (sep : ascii) (a rest : string) :
  count_char sep a = O ->
  split sep (a ++ String sep rest) = a :: split sep rest.
Proof.
  induction a as [|x a IH]; simpl.
  - intros _. now rewrite Ascii.eqb_refl.
  - destruct (Ascii.eqb x sep); simpl; [discriminate|].
    intros H. now rewrite (IH H).
Qed.

Lemma split_single (sep : ascii) (a : string) :
  count_char sep a = O -> split sep a = [a].
Proof.
  induction a as [|c rest IH]; [reflexivity|].
  cbn [count_char split].
  destruct (Ascii.eqb c sep); [discriminate|].
  intros H. now rewrite (IH H).
Qed.

(** ** [leftpad] *)

Lemma leftpad_short (data : string) (size : Z) :
  Z.of_nat (String.length data) <= size ->
  leftpad data size
  = Ok (repeat_string "0" (Z.to_nat size - String.length data) ++ data).
Proof.
  intros Hle. unfold leftpad, js_repeat.
  destruct (Z.eqb_spec (Z.of_nat (String.length data)) size) as [Heq|Hne].
  - subst size. rewrite Nat2Z.id, Nat.sub_diag. reflexivity.
  - destruct (Z.ltb_spec (size - Z.of_nat (String.length data)) 0) as [Hlt|_];
      [lia|]. simpl.
    now rewrite Z2Nat.inj_sub, Nat2Z.id by lia.
Qed.

(** C9. [leftpad("abc", 6)] is ["000abc"], [leftpad("abcdef", 6)] is
    ["abcdef"], and on every input strictly longer than the target length
    [leftpad] throws (the [RangeError] of [String.prototype.repeat] on a
    negative count) instead of returning a string. *)
Theorem leftpad_pads_or_throws :
  leftpad "abc" 6 = Ok "000abc" /\
  leftpad "abcdef" 6 = Ok "abcdef" /\
  forall (data : string) (size : Z),
    size < Z.of_nat (String.length data) -> leftpad data size = Err RangeError.
Proof.
  split; [reflexivity|]. split; [reflexivity|].
  intros data size Hlong. unfold leftpad, js_repeat.
  destruct (Z.eqb_spec (Z.of_nat (String.length data)) size) as [Heq|_]; [lia|].
  destruct (Z.ltb_spec (size - Z.of_nat (String.length data)) 0) as [_|Hge];
    [reflexivity | lia].
Qed.

Lemma leftpad_pads_or_throws_witness :
  6 < Z.of_nat (String.length "abcdefg") /\ leftpad "abcdefg" 6 = Err RangeError.
Proof.
  split; [simpl; lia|].
  apply (proj2 (proj2 leftpad_pads_or_throws) "abcdefg" 6). simpl; lia.
Defined.

(** ** [toGeneralJWS] *)

Lemma join_split (sep : ascii) (a : string) :
  String.concat (String sep "") (split sep a) = a.
Proof.
  induction a as [|x a IH]; simpl; [reflexivity|].
  pose proof (split_nonempty sep a) as Hne.
  destruct (Ascii.eqb_spec x sep) as [->|Hx].
  - destruct (split sep a) as [|part parts]; [contradiction|].
    simpl in *. now rewrite IH.
  - destruct (split sep a) as [|part parts]; [contradiction|].
    destruct parts; simpl in *; now rewrite IH.
Qed.

(** C1, as the code has it.  [toGeneralJWS] never throws: it always returns
    one signature entry built from the first three parts of the split, a
    missing part being [undefined] and parts after the third being dropped.
    For a string of exactly three parts the payload is the middle part,
    [protected] the first and [signature] the third. *)
Theorem toGeneralJWS_takes_first_three_parts :
  forall jws : string,
    toGeneralJWS jws
    = {| jws_payload := nth_error (split "." jws) 1;
         jws_signatures :=
           [ {| sig_protected := Some (hd "" (split "." jws));
                sig_signature := nth_error (split "." jws) 2 |} ] |} /\
    (List.length (split "." jws) = 3%nat ->
     exists a b c : string,
       jws = a ++ "." ++ b ++ "." ++ c /\
       toGeneralJWS jws
       = {| jws_payload := Some b;
            jws_signatures :=
              [ {| sig_protected := Some a; sig_signature := Some c |} ] |}).
Proof.
  intros jws. split.
  - unfold toGeneralJWS. pose proof (split_nonempty "." jws) as Hne.
    destruct (split "." jws) as [|a parts]; [contradiction | reflexivity].
  - intros Hlen. pose proof (join_split "." jws) as Hjoin.
    unfold toGeneralJWS.
    destruct (split "." jws) as [|a [|b [|c [|d parts]]]]; try discriminate.
    exists a, b, c. split; [now rewrite <- Hjoin | reflexivity].
Qed.

Lemma toGeneralJWS_takes_first_three_parts_witness :
  List.length (split "." "aGVhZA.Ym9keQ.c2ln") = 3%nat /\
  exists a b c : string,
    "aGVhZA.Ym9keQ.c2ln" = a ++ "." ++ b ++ "." ++ c /\
    toGeneralJWS "aGVhZA.Ym9keQ.c2ln"
    = {| jws_payload := Some b;
         jws_signatures :=
           [ {| sig_protected := Some a; sig_signature := Some c |} ] |}.
Proof.
  split; [reflexivity|].
  apply (proj2 (toGeneralJWS_takes_first_three_parts "aGVhZA.Ym9keQ.c2ln")).
  reflexivity.
Defined.

(** C1 as stated fails: a compact string of two parts is not rejected; the
    call returns a [GeneralJWS] whose [signature] is [undefined].  Nor is a
    string of four parts: the fourth part is dropped. *)
Lemma toGeneralJWS_accepts_two_parts :
  List.length (split "." "aGVhZA.Ym9keQ") = 2%nat /\
  toGeneralJWS "aGVhZA.Ym9keQ"
  = {| jws_payload := Some "Ym9keQ";
       jws_signatures :=
         [ {| sig_protected := Some "aGVhZA"; sig_signature := None |} ] |} /\
  List.length (split "." "a.b.c.d") = 4%nat /\
  toGeneralJWS "a.b.c.d"
  = {| jws_payload := Some "b";
       jws_signatures :=
         [ {| sig_protected := Some "a"; sig_signature := Some "c" |} ] |}.
Proof. repeat split. Qed.

(** ** Bytes *)

Lemma u8_range (b : byte) : 0 <= u8 b < 256.
Proof.
  unfold u8. pose proof (Byte.to_N_bounded b) as H. lia.
Qed.

Lemma to_u8_u8 (b : byte) : to_u8 (u8 b) = b.
Proof.
  unfold to_u8. rewrite Z.mod_small by apply u8_range.
  unfold u8. now rewrite N2Z.id, Byte.of_to_N.
Qed.

Lemma u8_to_u8 (z : Z) : u8 (to_u8 z) = z mod 256.
Proof.
  unfold to_u8, u8.
  pose proof (Z.mod_pos_bound z 256 ltac:(lia)) as Hr.
  destruct (Byte.of_N (Z.to_N (z mod 256))) as [b|] eqn:E.
  - apply Byte.to_of_N in E. rewrite E. lia.
  - apply Byte.of_N_None_iff in E. lia.
Qed.

(** A property of the numbers below [n], checked by enumeration. *)
Lemma check_below (n : nat) (p : Z -> bool) :
  forallb (fun i => p (Z.of_nat i)) (seq 0 n) = true ->
  forall v, 0 <= v < Z.of_nat n -> p v = true.
Proof.
  intros Hall v Hv. rewrite forallb_forall in Hall.
  specialize (Hall (Z.to_nat v)). rewrite Z2Nat.id in Hall by lia.
  apply Hall, in_seq. lia.
Qed.

(** ** Alphabets *)

Lemma alphabet_index_sound (alphabet : string) (c : ascii) (v : Z) :
  alphabet_index alphabet c = Some v ->
  0 <= v < Z.of_nat (String.length alphabet) /\ alphabet_char alphabet v = c.
Proof.
  unfold alphabet_char. revert v.
  induction alphabet as [|a rest IH]; simpl; intros v; [discriminate|].
  destruct (Ascii.eqb_spec a c) as [->|Hac].
  - intros [= <-]. split; [lia | reflexivity].
  - destruct (alphabet_index rest c) as [w|]; [|discriminate].
    intros [= <-]. destruct (IH w eq_refl) as [Hw Hc].
    split; [lia|].
    replace (Z.to_nat (Z.succ w)) with (S (Z.to_nat w)) by lia. exact Hc.
Qed.

Lemma hex_value_char (v : Z) : 0 <= v < 16 -> hex_value (hex_char v) = Some v.
Proof.
  intros Hv.
  pose proof (check_below 16
    (fun v => match hex_value (hex_char v) with
              | Some w => w =? v
              | None => false
              end) eq_refl v Hv) as H.
  simpl in H. destruct (hex_value (hex_char v)); [|discriminate].
  apply Z.eqb_eq in H. now subst.
Qed.

Lemma hex_value_sound (c : ascii) (v : Z) :
  hex_value c = Some v -> 0 <= v < 16 /\ hex_char v = c.
Proof. intros H. exact (alphabet_index_sound _ _ _ H). Qed.

Lemma b64_value_char (v : Z) : 0 <= v < 64 -> b64_value (b64_char v) = Some v.
Proof.
  intros Hv.
  pose proof (check_below 64
    (fun v => match b64_value (b64_char v) with
              | Some w => w =? v
              | None => false
              end) eq_refl v Hv) as H.
  simpl in H. destruct (b64_value (b64_char v)); [|discriminate].
  apply Z.eqb_eq in H. now subst.
Qed.

(** ** base16 *)

Lemma string_ind2 (P : string -> Prop) :
  P "" ->
  (forall c, P (String c "")) ->
  (forall c1 c2 rest, P rest -> P (String c1 (String c2 rest))) ->
  forall a, P a.
Proof.
  intros H0 H1 H2.
  fix IH 1. intros [|c1 [|c2 rest]]; [exact H0 | apply H1 | apply H2, IH].
Qed.

Lemma hex_digits_of_byte (hi lo : Z) :
  0 <= hi < 16 -> 0 <= lo < 16 ->
  u8 (to_u8 (hi * 16 + lo)) / 16 = hi /\ u8 (to_u8 (hi * 16 + lo)) mod 16 = lo.
Proof.
  intros Hhi Hlo. rewrite u8_to_u8, Z.mod_small by lia.
  split.
  - rewrite Z.div_add_l by lia. rewrite Z.div_small by lia. lia.
  - rewrite Z.add_comm, Z.mod_add by lia. apply Z.mod_small; lia.
Qed.

Lemma strip_padding_id (a : string) :
  string_forallb (fun c => negb (Ascii.eqb c "=")) a = true ->
  strip_padding a = a.
Proof.
  induction a as [|c a IH]; [reflexivity|].
  cbn [string_forallb strip_padding]. intros H.
  apply andb_true_iff in H as [Hc Ha]. rewrite (IH Ha).
  apply negb_true_iff in Hc. rewrite Hc. now destruct a.
Qed.

Lemma strip_padding_hex (a : string) :
  string_forallb is_hex a = true -> strip_padding a = a.
Proof.
  intros H. apply strip_padding_id. revert H. apply string_forallb_impl.
  intros c Hc. destruct (Ascii.eqb_spec c "=") as [->|]; [discriminate | reflexivity].
Qed.

Lemma base16_encode_alphabet (b : list byte) :
  string_forallb is_hex (base16_encode b) = true.
Proof.
  induction b as [|x b IH]; [reflexivity|].
  pose proof (u8_range x) as Hx.
  cbn [base16_encode string_forallb]. unfold is_hex at 1 2.
  rewrite !hex_value_char; [exact IH | |].
  - apply Z.mod_pos_bound; lia.
  - split; [apply Z.div_pos; lia | apply Z.div_lt_upper_bound; lia].
Qed.

Lemma base16_encode_length (b : list byte) :
  String.length (base16_encode b) = (2 * List.length b)%nat.
Proof. induction b as [|x b IH]; simpl; [reflexivity | rewrite IH; lia]. Qed.

Lemma base16_read_encode (b : list byte) : base16_read (base16_encode b) = Ok b.
Proof.
  induction b as [|x b IH]; [reflexivity|].
  pose proof (u8_range x) as Hx.
  cbn [base16_encode base16_read].
  rewrite !hex_value_char, IH.
  - cbn [bind]. rewrite Z.mul_comm, <- Z.div_mod by lia. now rewrite to_u8_u8.
  - apply Z.mod_pos_bound; lia.
  - split; [apply Z.div_pos; lia | apply Z.div_lt_upper_bound; lia].
Qed.

Lemma base16_encode_read (a : string) (b : list byte) :
  base16_read a = Ok b -> base16_encode b = a.
Proof.
  revert b. induction a as [|c|c1 c2 rest IH] using string_ind2; intros b.
  - intros [= <-]. reflexivity.
  - cbn [base16_read]. unfold unexpected_end.
    destruct (hex_value c); discriminate.
  - cbn [base16_read].
    destruct (hex_value c1) as [hi|] eqn:E1; [|discriminate].
    destruct (hex_value c2) as [lo|] eqn:E2; [|discriminate].
    destruct (base16_read rest) as [bytes|e]; [|discriminate].
    cbn [bind]. intros [= <-].
    apply hex_value_sound in E1 as [Hhi <-], E2 as [Hlo <-].
    destruct (hex_digits_of_byte hi lo Hhi Hlo) as [Hd Hm].
    cbn [base16_encode]. now rewrite Hd, Hm, (IH bytes eq_refl).
Qed.

Lemma base16_read_total (a : string) :
  string_forallb is_hex a = true -> Nat.even (String.length a) = true ->
  exists b, base16_read a = Ok b.
Proof.
  induction a as [|c|c1 c2 rest IH] using string_ind2.
  - intros _ _. now exists [].
  - intros _ H. discriminate.
  - cbn [string_forallb String.length]. unfold is_hex at 1 2.
    intros Hhex Heven.
    apply andb_true_iff in Hhex as [H1 Hhex].
    apply andb_true_iff in Hhex as [H2 Hhex].
    destruct (IH Hhex Heven) as [bytes Hb].
    cbn [base16_read].
    destruct (hex_value c1) as [hi|]; [|discriminate].
    destruct (hex_value c2) as [lo|]; [|discriminate].
    rewrite Hb. cbn [bind]. eauto.
Qed.

Lemma base16_read_error (a : string) (e : error) :
  base16_read a = Err e -> exists message, e = SyntaxError message.
Proof.
  revert e. induction a as [|c|c1 c2 rest IH] using string_ind2; intros e.
  - discriminate.
  - cbn [base16_read]. unfold unexpected_end.
    destruct (hex_value c); intros [= <-]; eauto.
  - cbn [base16_read].
    destruct (hex_value c1); [|intros [= <-]; eauto].
    destruct (hex_value c2); [|intros [= <-]; eauto].
    destruct (base16_read rest) as [bytes|e']; cbn [bind]; [discriminate|].
    intros [= <-]. now apply IH.
Qed.

Lemma base16_decode_encode (b : list byte) :
  base16_decode (base16_encode b) = Ok b.
Proof.
  unfold base16_decode.
  rewrite strip_padding_hex by apply base16_encode_alphabet.
  apply base16_read_encode.
Qed.

(** Base16 text decodes to the bytes it is the encoding of. *)
Lemma base16_encode_decode (a : string) (b : list byte) :
  string_forallb is_hex a = true ->
  base16_decode a = Ok b -> base16_encode b = a.
Proof.
  intros Hhex. unfold base16_decode. rewrite (strip_padding_hex a Hhex).
  apply base16_encode_read.
Qed.

Lemma base16_decode_length (a : string) (b : list byte) :
  string_forallb is_hex a = true ->
  base16_decode a = Ok b -> String.length a = (2 * List.length b)%nat.
Proof.
  intros Hhex H. apply (base16_encode_decode a b Hhex) in H as <-.
  apply base16_encode_length.
Qed.

(** An even number of base16 characters always decodes. *)
Lemma base16_decode_total (a : string) :
  string_forallb is_hex a = true -> Nat.even (String.length a) = true ->
  exists b, base16_decode a = Ok b.
Proof.
  intros Hhex Heven. unfold base16_decode. rewrite (strip_padding_hex a Hhex).
  now apply base16_read_total.
Qed.

Lemma base16_decode_error (a : string) (e : error) :
  base16_decode a = Err e -> exists message, e = SyntaxError message.
Proof. apply base16_read_error. Qed.

(** ** base64url *)

Lemma list_ind3 {A : Type} (P : list A -> Prop) :
  P [] ->
  (forall x, P [x]) ->
  (forall x y, P [x; y]) ->
  (forall x y z rest, P rest -> P (x :: y :: z :: rest)) ->
  forall l, P l.
Proof.
  intros H0 H1 H2 H3.
  fix IH 1. intros [|x [|y [|z rest]]];
    [exact H0 | apply H1 | apply H2 | apply H3, IH].
Qed.

Ltac euclid :=
  Z.to_euclidean_division_equations; lia.

Lemma sextet_1 (x : byte) : 0 <= u8 x / 4 < 64.
Proof. pose proof (u8_range x). euclid. Qed.

Lemma sextet_2 (x y : byte) : 0 <= u8 x mod 4 * 16 + u8 y / 16 < 64.
Proof. pose proof (u8_range x). pose proof (u8_range y). euclid. Qed.

Lemma sextet_2_last (x : byte) : 0 <= u8 x mod 4 * 16 < 64.
Proof. pose proof (u8_range x). euclid. Qed.

Lemma sextet_3 (y z : byte) : 0 <= u8 y mod 16 * 4 + u8 z / 64 < 64.
Proof. pose proof (u8_range y). pose proof (u8_range z). euclid. Qed.

Lemma sextet_3_last (y : byte) : 0 <= u8 y mod 16 * 4 < 64.
Proof. pose proof (u8_range y). euclid. Qed.

Lemma sextet_4 (z : byte) : 0 <= u8 z mod 64 < 64.
Proof. pose proof (u8_range z). euclid. Qed.

Lemma octet_1 (x y : byte) :
  to_u8 (u8 x / 4 * 4 + (u8 x mod 4 * 16 + u8 y / 16) / 16) = x.
Proof.
  rewrite <- (to_u8_u8 x) at 3. f_equal.
  pose proof (u8_range x). pose proof (u8_range y). euclid.
Qed.

Lemma octet_1_last (x : byte) :
  to_u8 (u8 x / 4 * 4 + (u8 x mod 4 * 16) / 16) = x.
Proof.
  rewrite <- (to_u8_u8 x) at 3. f_equal.
  pose proof (u8_range x). euclid.
Qed.

Lemma octet_2 (x y z : byte) :
  to_u8 ((u8 x mod 4 * 16 + u8 y / 16) mod 16 * 16
         + (u8 y mod 16 * 4 + u8 z / 64) / 4) = y.
Proof.
  rewrite <- (to_u8_u8 y) at 3. f_equal.
  pose proof (u8_range x). pose proof (u8_range y). pose proof (u8_range z).
  euclid.
Qed.

Lemma octet_2_last (x y : byte) :
  to_u8 ((u8 x mod 4 * 16 + u8 y / 16) mod 16 * 16 + (u8 y mod 16 * 4) / 4) = y.
Proof.
  rewrite <- (to_u8_u8 y) at 3. f_equal.
  pose proof (u8_range x). pose proof (u8_range y). euclid.
Qed.

Lemma octet_3 (y z : byte) :
  to_u8 ((u8 y mod 16 * 4 + u8 z / 64) mod 4 * 64 + u8 z mod 64) = z.
Proof.
  rewrite <- (to_u8_u8 z) at 3. f_equal.
  pose proof (u8_range y). pose proof (u8_range z). euclid.
Qed.

Lemma base64url_encode_alphabet (b : list byte) :
  string_forallb is_b64 (base64url_encode b) = true.
Proof.
  induction b as [|x|x y|x y z rest IH] using list_ind3;
    cbn [base64url_encode string_forallb]; unfold is_b64.
  - reflexivity.
  - now rewrite (b64_value_char _ (sextet_1 x)),
      (b64_value_char _ (sextet_2_last x)).
  - now rewrite (b64_value_char _ (sextet_1 x)), (b64_value_char _ (sextet_2 x y)),
      (b64_value_char _ (sextet_3_last y)).
  - rewrite (b64_value_char _ (sextet_1 x)), (b64_value_char _ (sextet_2 x y)),
      (b64_value_char _ (sextet_3 y z)), (b64_value_char _ (sextet_4 z)).
    exact IH.
Qed.

Lemma is_b64_not (c d : ascii) :
  is_b64 d = false -> is_b64 c = true -> negb (Ascii.eqb c d) = true.
Proof.
  intros Hd Hc. destruct (Ascii.eqb_spec c d) as [->|]; [congruence | reflexivity].
Qed.

Lemma strip_padding_b64 (a : string) :
  string_forallb is_b64 a = true -> strip_padding a = a.
Proof.
  intros H. apply strip_padding_id. revert H. apply string_forallb_impl.
  intros c. now apply is_b64_not.
Qed.

Lemma base64url_decode_encode (b : list byte) :
  base64url_decode (base64url_encode b) = Ok b.
Proof.
  unfold base64url_decode.
  rewrite strip_padding_b64 by apply base64url_encode_alphabet.
  induction b as [|x|x y|x y z rest IH] using list_ind3.
  - reflexivity.
  - cbn [base64url_encode b64_values].
    rewrite (b64_value_char _ (sextet_1 x)), (b64_value_char _ (sextet_2_last x)).
    cbn [bind b64_bytes].
    replace (u8 x mod 4 * 16 mod 16) with 0
      by (pose proof (u8_range x); euclid).
    cbn [Z.eqb]. now rewrite octet_1_last.
  - cbn [base64url_encode b64_values].
    rewrite (b64_value_char _ (sextet_1 x)), (b64_value_char _ (sextet_2 x y)),
      (b64_value_char _ (sextet_3_last y)).
    cbn [bind b64_bytes].
    replace (u8 y mod 16 * 4 mod 4) with 0
      by (pose proof (u8_range y); euclid).
    cbn [Z.eqb]. now rewrite octet_1, octet_2_last.
  - cbn [base64url_encode b64_values].
    rewrite (b64_value_char _ (sextet_1 x)), (b64_value_char _ (sextet_2 x y)),
      (b64_value_char _ (sextet_3 y z)), (b64_value_char _ (sextet_4 z)).
    destruct (b64_values (base64url_encode rest)) as [vs|e];
      cbn [bind] in *; [|discriminate].
    cbn [b64_bytes]. rewrite IH. cbn [bind].
    now rewrite octet_1, octet_2, octet_3.
Qed.

Lemma base64url_no_dot (a : string) :
  string_forallb is_b64 a = true -> count_char "." a = O.
Proof.
  intros H. apply count_char_absent.
  revert H. apply string_forallb_impl. intros c. now apply is_b64_not.
Qed.

Lemma base64_to_base64url_id (a : string) :
  string_forallb is_b64 a = true -> base64_to_base64url a = a.
Proof.
  unfold base64_to_base64url.
  induction a as [|c a IH]; [reflexivity|].
  cbn [string_forallb string_map string_filter]. intros H.
  apply andb_true_iff in H as [Hc Ha].
  pose proof (is_b64_not c "+" eq_refl Hc) as Hplus.
  pose proof (is_b64_not c "/" eq_refl Hc) as Hslash.
  pose proof (is_b64_not c "=" eq_refl Hc) as Heq.
  apply negb_true_iff in Hplus, Hslash.
  rewrite Hplus, Hslash, Heq. now rewrite (IH Ha).
Qed.

Lemma base64ToBytes_bytesToBase64url (b : list byte) :
  base64ToBytes (bytesToBase64url b) = Ok b.
Proof.
  unfold base64ToBytes, bytesToBase64url.
  rewrite base64_to_base64url_id by apply base64url_encode_alphabet.
  apply base64url_decode_encode.
Qed.

(** ** Typed arrays *)

Lemma ta_set_app (pre mid post source : list byte) (offset : nat) :
  offset = List.length pre -> List.length mid = List.length source ->
  ta_set (pre ++ mid ++ post) source offset = Ok (pre ++ source ++ post)%list.
Proof.
  intros -> Hlen. unfold ta_set.
  rewrite !length_app.
  destruct (Nat.ltb_spec (List.length pre + (List.length mid + List.length post))
              (List.length pre + List.length source)) as [Hlt|_]; [lia|].
  rewrite firstn_app, firstn_all, Nat.sub_diag, firstn_O, app_nil_r.
  rewrite skipn_app, skipn_all2 by lia.
  replace (List.length pre + List.length source - List.length pre)%nat
    with (List.length mid) by lia.
  rewrite skipn_app, skipn_all, Nat.sub_diag, skipn_O. reflexivity.
Qed.

Lemma ta_set_start (mid post source : list byte) :
  List.length mid = List.length source ->
  ta_set (mid ++ post) source 0 = Ok (source ++ post)%list.
Proof. intros H. exact (ta_set_app [] mid post source 0 eq_refl H). Qed.

Lemma ta_store_app (pre post : list byte) (old v : byte) (i : nat) :
  i = List.length pre ->
  ta_store (pre ++ old :: post) i v = (pre ++ v :: post)%list.
Proof.
  intros ->. induction pre as [|x pre IH]; simpl; [reflexivity | now rewrite IH].
Qed.

Lemma jose_fields_length (rbytes sbytes : list byte) :
  (List.length rbytes <= 32)%nat -> (List.length sbytes <= 32)%nat ->
  List.length (jose_fields rbytes sbytes) = 64%nat.
Proof.
  intros Hr Hs. unfold jose_fields. rewrite !length_app, !repeat_length. lia.
Qed.

Lemma jose_fields_full (rbytes sbytes : list byte) :
  List.length rbytes = 32%nat -> List.length sbytes = 32%nat ->
  jose_fields rbytes sbytes = (rbytes ++ sbytes)%list.
Proof.
  intros Hr Hs. unfold jose_fields. rewrite Hr, Hs. simpl.
  now rewrite app_nil_r.
Qed.

(** ** [toJose] *)

Section ToJoseLayout.

Variables (sig : EcdsaSignature) (rbytes sbytes : list byte).
Hypothesis Hr : base16_decode (r sig) = Ok rbytes.
Hypothesis Hs : base16_decode (s sig) = Ok sbytes.
Hypothesis Hrlen : (List.length rbytes <= 32)%nat.
Hypothesis Hslen : (List.length sbytes <= 32)%nat.

Lemma toJose_bytes_fields (n : nat) :
  (64 <= n)%nat ->
  (jose <- ta_set (ta_alloc n) rbytes 0 ;; ta_set jose sbytes 32)
  = Ok (jose_fields rbytes sbytes ++ repeat x00 (n - 64))%list.
Proof.
  intros Hn. unfold ta_alloc, jose_fields.
  replace n with (List.length rbytes
                  + ((32 - List.length rbytes)
                     + (List.length sbytes
                        + ((32 - List.length sbytes) + (n - 64)))))%nat at 1
    by lia.
  rewrite !repeat_app.
  rewrite ta_set_start by now rewrite repeat_length.
  cbn [bind].
  rewrite (app_assoc rbytes).
  rewrite (ta_set_app _ _ _ sbytes 32)
    by (rewrite ?length_app, ?repeat_length; lia).
  now rewrite <- !app_assoc.
Qed.

Lemma toJose_bytes_plain :
  toJose_bytes sig false = Ok (jose_fields rbytes sbytes).
Proof.
  pose proof (toJose_bytes_fields 64 (Nat.le_refl _)) as H.
  unfold toJose_bytes. rewrite Hr. cbn [bind].
  destruct (ta_set (ta_alloc 64) rbytes 0) as [jose|e]; cbn [bind] in *;
    [|discriminate].
  rewrite Hs. cbn [bind]. rewrite H. cbn [bind].
  now rewrite app_nil_r.
Qed.

Lemma toJose_bytes_recoverable :
  toJose_bytes sig true
  = match recoveryParam sig with
    | RPUndefined => Err MissingRecoveryParam
    | rp => Ok (jose_fields rbytes sbytes
                  ++ [to_u8 (recoveryParam_number rp)])%list
    end.
Proof.
  pose proof (toJose_bytes_fields 65 ltac:(lia)) as H.
  unfold toJose_bytes. rewrite Hr. cbn [bind].
  destruct (ta_set (ta_alloc 65) rbytes 0) as [jose|e]; cbn [bind] in *;
    [|discriminate].
  rewrite Hs. cbn [bind]. rewrite H. cbn [bind].
  change (repeat x00 (65 - 64)) with [x00].
  destruct (recoveryParam sig); [reflexivity| |];
    now rewrite ta_store_app by (now rewrite jose_fields_length).
Qed.

End ToJoseLayout.

Lemma jose_fields_slices (rbytes sbytes tail : list byte) :
  (List.length rbytes <= 32)%nat -> (List.length sbytes <= 32)%nat ->
  ta_slice (jose_fields rbytes sbytes ++ tail) 0 32
  = (rbytes ++ repeat x00 (32 - List.length rbytes))%list /\
  ta_slice (jose_fields rbytes sbytes ++ tail) 32 64
  = (sbytes ++ repeat x00 (32 - List.length sbytes))%list.
Proof.
  intros Hr Hs. unfold ta_slice.
  assert (E : (jose_fields rbytes sbytes ++ tail)%list
              = ((rbytes ++ repeat x00 (32 - List.length rbytes))
                   ++ (sbytes ++ repeat x00 (32 - List.length sbytes))
                   ++ tail)%list)
    by (unfold jose_fields; now rewrite <- !app_assoc).
  rewrite E. clear E.
  set (rfield := (rbytes ++ repeat x00 (32 - List.length rbytes))%list).
  set (sfield := (sbytes ++ repeat x00 (32 - List.length sbytes))%list).
  assert (Hrf : List.length rfield = 32%nat)
    by (unfold rfield; rewrite length_app, repeat_length; lia).
  assert (Hsf : List.length sfield = 32%nat)
    by (unfold sfield; rewrite length_app, repeat_length; lia).
  split.
  - rewrite skipn_O. change (32 - 0)%nat with 32%nat.
    rewrite firstn_app, Hrf, Nat.sub_diag, firstn_O, app_nil_r.
    apply firstn_all2. lia.
  - rewrite skipn_app, Hrf, Nat.sub_diag, skipn_O, skipn_all2 by lia.
    change (64 - 32)%nat with 32%nat. cbn [app].
    rewrite firstn_app, Hsf, Nat.sub_diag, firstn_O, app_nil_r.
    apply firstn_all2. lia.
Qed.

Lemma ta_set_error (target source : list byte) (offset : nat) (e : error) :
  ta_set target source offset = Err e -> e = RangeError.
Proof.
  unfold ta_set.
  destruct (List.length target <? offset + List.length source)%nat;
    [now intros [= <-] | discriminate].
Qed.

(** The missing-recovery-param error has one source. *)
Lemma toJose_missing_recoveryParam (sig : EcdsaSignature) (recoverable : bool) :
  toJose sig recoverable = Err MissingRecoveryParam ->
  recoverable = true /\ recoveryParam sig = RPUndefined.
Proof.
  unfold toJose, toJose_bytes.
  destruct (base16_decode (r sig)) as [rbytes|e] eqn:Er; cbn [bind].
  2: { intros [= ->]. now destruct (base16_decode_error _ _ Er). }
  destruct (ta_set _ rbytes 0) as [jose1|e] eqn:E1; cbn [bind].
  2: { intros [= ->]. now apply ta_set_error in E1. }
  destruct (base16_decode (s sig)) as [sbytes|e] eqn:Es; cbn [bind].
  2: { intros [= ->]. now destruct (base16_decode_error _ _ Es). }
  destruct (ta_set jose1 sbytes 32) as [jose2|e] eqn:E2; cbn [bind].
  2: { intros [= ->]. now apply ta_set_error in E2. }
  destruct recoverable; [|discriminate].
  destruct (recoveryParam sig); [now split | discriminate | discriminate].
Qed.

(** C6. [toJose] throws the missing-recovery-param error only when called
    with [recoverable] and [recoveryParam] is [undefined].  For a signature
    whose [r] and [s] are base16 text of at most 32 bytes each:
    [toJose(sig, true)] throws that error exactly when [recoveryParam] is
    [undefined]; otherwise it encodes 65 bytes whose byte 64 is the recovery
    param (as a byte); and [toJose(sig, false)] encodes 64 bytes.  In both,
    [r] starts the 32-byte field at offset 0 and [s] the 32-byte field at
    offset 32, a field that is not filled keeping the zeros of the fresh
    array. *)
Theorem toJose_recovery_param_and_layout :
  forall sig : EcdsaSignature,
    (toJose sig true = Err MissingRecoveryParam ->
     recoveryParam sig = RPUndefined) /\
    (forall rbytes sbytes : list byte,
        base16_decode (r sig) = Ok rbytes ->
        base16_decode (s sig) = Ok sbytes ->
        (List.length rbytes <= 32)%nat ->
        (List.length sbytes <= 32)%nat ->
        (toJose sig true = Err MissingRecoveryParam
         <-> recoveryParam sig = RPUndefined) /\
        (recoveryParam sig <> RPUndefined ->
         exists jose : list byte,
           toJose sig true = Ok (bytesToBase64url jose) /\
           base64ToBytes (bytesToBase64url jose) = Ok jose /\
           List.length jose = 65%nat /\
           nth_error jose 64
           = Some (to_u8 (recoveryParam_number (recoveryParam sig))) /\
           (forall n, recoveryParam sig = RPNumber n -> 0 <= n < 256 ->
                      option_map u8 (nth_error jose 64) = Some n) /\
           ta_slice jose 0 32
           = (rbytes ++ repeat x00 (32 - List.length rbytes))%list /\
           ta_slice jose 32 64
           = (sbytes ++ repeat x00 (32 - List.length sbytes))%list) /\
        (exists jose : list byte,
           toJose sig false = Ok (bytesToBase64url jose) /\
           base64ToBytes (bytesToBase64url jose) = Ok jose /\
           List.length jose = 64%nat /\
           ta_slice jose 0 32
           = (rbytes ++ repeat x00 (32 - List.length rbytes))%list /\
           ta_slice jose 32 64
           = (sbytes ++ repeat x00 (32 - List.length sbytes))%list)).
Proof.
  intros sig. split; [intros H; now apply toJose_missing_recoveryParam in H|].
  intros rbytes sbytes Hr Hs Hrlen Hslen.
  pose proof (toJose_bytes_recoverable sig rbytes sbytes Hr Hs Hrlen Hslen) as Ht.
  pose proof (toJose_bytes_plain sig rbytes sbytes Hr Hs Hrlen Hslen) as Hf.
  pose proof (jose_fields_length rbytes sbytes Hrlen Hslen) as Hlen.
  split; [|split].
  - unfold toJose. rewrite Ht.
    destruct (recoveryParam sig); cbn [bind]; split; congruence.
  - intros Hrp.
    exists (jose_fields rbytes sbytes
              ++ [to_u8 (recoveryParam_number (recoveryParam sig))])%list.
    assert (Hnth : nth_error
                     (jose_fields rbytes sbytes
                        ++ [to_u8 (recoveryParam_number (recoveryParam sig))]) 64
                   = Some (to_u8 (recoveryParam_number (recoveryParam sig)))).
    { rewrite nth_error_app2 by lia. now rewrite Hlen. }
    split; [|split; [|split; [|split; [|split]]]].
    + unfold toJose. rewrite Ht.
      destruct (recoveryParam sig); [contradiction| |]; reflexivity.
    + apply base64ToBytes_bytesToBase64url.
    + rewrite length_app, Hlen. reflexivity.
    + exact Hnth.
    + intros n Hn Hrange. rewrite Hnth, Hn. cbn [option_map recoveryParam_number].
      now rewrite u8_to_u8, Z.mod_small.
    + now apply jose_fields_slices.
  - exists (jose_fields rbytes sbytes).
    split; [|split; [|split]].
    + unfold toJose. now rewrite Hf.
    + apply base64ToBytes_bytesToBase64url.
    + exact Hlen.
    + rewrite <- (app_nil_r (jose_fields rbytes sbytes)).
      now apply jose_fields_slices.
Qed.

Lemma toJose_recovery_param_and_layout_witness :
  (toJose {| r := "01"; s := "02"; recoveryParam := RPUndefined |} true
   = Err MissingRecoveryParam
   <-> RPUndefined = RPUndefined) /\
  exists jose : list byte,
    toJose {| r := "01"; s := "02"; recoveryParam := RPUndefined |} false
    = Ok (bytesToBase64url jose) /\
    List.length jose = 64%nat.
Proof.
  destruct (proj2 (toJose_recovery_param_and_layout
                     {| r := "01"; s := "02"; recoveryParam := RPUndefined |})
              [x01] [x02] eq_refl eq_refl
              ltac:(simpl; lia) ltac:(simpl; lia))
    as (Hmissing & _ & jose & Hjose & _ & Hlen & _).
  split; [exact Hmissing | now exists jose].
Defined.

(** ** [fromJose] *)

(** C7. For every signature text that decodes to bytes: a length other than
    64 or 65 is rejected with the wrong-size error; 64 bytes give [r] and
    [s] only, [recoveryParam] being [undefined]; 65 bytes give in addition
    the last byte as [recoveryParam]. *)
Theorem fromJose_checks_length :
  forall (signature : string) (bytes : list byte),
    base64ToBytes signature = Ok bytes ->
    (List.length bytes <> 64%nat -> List.length bytes <> 65%nat ->
     fromJose signature = Err (InvalidSignatureLength (List.length bytes))) /\
    (List.length bytes = 64%nat ->
     fromJose signature
     = Ok {| r := bytesToHex (ta_slice bytes 0 32);
             s := bytesToHex (ta_slice bytes 32 64);
             recoveryParam := RPUndefined |}) /\
    (List.length bytes = 65%nat ->
     exists last : byte,
       nth_error bytes 64 = Some last /\
       fromJose signature
       = Ok {| r := bytesToHex (ta_slice bytes 0 32);
               s := bytesToHex (ta_slice bytes 32 64);
               recoveryParam := RPNumber (u8 last) |}).
Proof.
  intros signature bytes Hdec. unfold fromJose. rewrite Hdec. cbn [bind].
  split; [|split].
  - intros H64 H65.
    destruct (Nat.ltb_spec (List.length bytes) 64) as [|Hge]; [reflexivity|].
    destruct (Nat.ltb_spec 65 (List.length bytes)) as [|Hle]; [reflexivity|].
    lia.
  - intros Hlen. rewrite Hlen. reflexivity.
  - intros Hlen. rewrite Hlen. cbn [Nat.ltb Nat.leb orb Nat.eqb].
    destruct (nth_error bytes 64) as [last|] eqn:E.
    + exists last. split; reflexivity.
    + apply nth_error_None in E. lia.
Qed.

Lemma fromJose_checks_length_witness :
  fromJose "" = Err (InvalidSignatureLength 0) /\
  fromJose "AA" = Err (InvalidSignatureLength 1) /\
  fromJose (bytesToBase64url (repeat x07 63)) = Err (InvalidSignatureLength 63) /\
  fromJose (bytesToBase64url (repeat x07 66)) = Err (InvalidSignatureLength 66).
Proof.
  split; [|split; [|split]].
  - apply (proj1 (fromJose_checks_length "" [] eq_refl)); simpl; lia.
  - apply (proj1 (fromJose_checks_length "AA" [x00] eq_refl)); simpl; lia.
  - apply (proj1 (fromJose_checks_length
                      (bytesToBase64url (repeat x07 63)) (repeat x07 63) eq_refl));
      simpl; lia.
  - apply (proj1 (fromJose_checks_length
                      (bytesToBase64url (repeat x07 66)) (repeat x07 66) eq_refl));
      simpl; lia.
Defined.

(** ** Round trip *)

(** C2. For a signature whose [r] and [s] are 64 lowercase base16 characters
    and whose [recoveryParam] is 0 or 1, decoding the recoverable JOSE
    encoding gives the signature back. *)
Theorem fromJose_toJose_roundtrip :
  forall sig : EcdsaSignature,
    String.length (r sig) = 64%nat -> string_forallb is_hex (r sig) = true ->
    String.length (s sig) = 64%nat -> string_forallb is_hex (s sig) = true ->
    recoveryParam sig = RPNumber 0 \/ recoveryParam sig = RPNumber 1 ->
    (jose <- toJose sig true ;; fromJose jose) = Ok sig.
Proof.
  intros [r0 s0 rp] Hrl Hrh Hsl Hsh Hrp. cbn [r s recoveryParam] in *.
  assert (Hnum : exists n, rp = RPNumber n /\ u8 (to_u8 n) = n)
    by (destruct Hrp as [-> | ->]; eexists; split; reflexivity).
  destruct Hnum as (n & -> & Hn). clear Hrp.
  destruct (base16_decode_total r0 Hrh) as [rbytes Hr]; [now rewrite Hrl|].
  destruct (base16_decode_total s0 Hsh) as [sbytes Hs]; [now rewrite Hsl|].
  pose proof (base16_decode_length _ _ Hrh Hr) as Hrb.
  pose proof (base16_decode_length _ _ Hsh Hs) as Hsb.
  assert (Hrlen : List.length rbytes = 32%nat) by lia.
  assert (Hslen : List.length sbytes = 32%nat) by lia.
  pose proof (toJose_bytes_recoverable
                {| r := r0; s := s0; recoveryParam := RPNumber n |}
                rbytes sbytes Hr Hs ltac:(lia) ltac:(lia)) as Ht.
  cbn [recoveryParam recoveryParam_number] in Ht.
  pose proof (jose_fields_slices rbytes sbytes [to_u8 n] ltac:(lia) ltac:(lia))
    as [Hs1 Hs2].
  rewrite Hrlen in Hs1. rewrite Hslen in Hs2. cbn [Nat.sub repeat] in Hs1, Hs2.
  rewrite app_nil_r in Hs1, Hs2.
  unfold toJose. rewrite Ht. cbn [bind].
  unfold fromJose. rewrite base64ToBytes_bytesToBase64url. cbn [bind].
  rewrite length_app, jose_fields_length by lia.
  cbn [List.length Nat.add Nat.ltb Nat.leb orb Nat.eqb].
  rewrite Hs1, Hs2.
  rewrite nth_error_app2 by (rewrite jose_fields_length; lia).
  rewrite jose_fields_length by lia. cbn [Nat.sub nth_error].
  rewrite Hn. unfold bytesToHex.
  now rewrite (base16_encode_decode _ _ Hrh Hr), (base16_encode_decode _ _ Hsh Hs).
Qed.

Lemma fromJose_toJose_roundtrip_witness :
  (jose <- toJose
             {| r := "79be667ef9dcbbac55a06295ce870b07029bfcdb2dce28d959f2815b16f81798";
                s := "00000000000000000000000000000000000000000000000000000000000000ff";
                recoveryParam := RPNumber 1 |} true ;;
   fromJose jose)
  = Ok {| r := "79be667ef9dcbbac55a06295ce870b07029bfcdb2dce28d959f2815b16f81798";
          s := "00000000000000000000000000000000000000000000000000000000000000ff";
          recoveryParam := RPNumber 1 |}.
Proof.
  apply fromJose_toJose_roundtrip;
    [reflexivity | reflexivity | reflexivity | reflexivity | now right].
Defined.

(** ** base58btc and [encodeDID] *)

Lemma b58_carry_digits (fuel : nat) (carry : Z) : b58_digits (b58_carry fuel carry).
Proof.
  revert carry. induction fuel as [|fuel IH]; intros carry; simpl.
  - constructor.
  - destruct (carry =? 0); constructor; [apply Z.mod_pos_bound; lia | apply IH].
Qed.

Lemma b58_carry_value (fuel : nat) (carry : Z) :
  0 <= carry <= Z.of_nat fuel -> b58_value (b58_carry fuel carry) = carry.
Proof.
  revert carry. induction fuel as [|fuel IH]; intros carry Hc; simpl.
  - lia.
  - destruct (Z.eqb_spec carry 0) as [->|Hne]; [reflexivity|].
    cbn [b58_value]. rewrite IH by euclid. euclid.
Qed.

Lemma b58_muladd_digits (digits : list Z) (carry : Z) :
  b58_digits (b58_muladd digits carry).
Proof.
  revert carry. induction digits as [|d rest IH]; intros carry; simpl.
  - apply b58_carry_digits.
  - constructor; [apply Z.mod_pos_bound; lia | apply IH].
Qed.

Lemma b58_muladd_value (digits : list Z) (carry : Z) :
  b58_digits digits -> 0 <= carry ->
  b58_value (b58_muladd digits carry) = 256 * b58_value digits + carry.
Proof.
  intros Hd. revert carry.
  induction Hd as [|d rest Hd0 Hrest IH]; intros carry Hc;
    cbn [b58_muladd b58_value].
  - rewrite b58_carry_value; lia.
  - rewrite IH by euclid. euclid.
Qed.

Lemma b58_value_nonneg (digits : list Z) : b58_digits digits -> 0 <= b58_value digits.
Proof. induction 1; cbn [b58_value]; lia. Qed.

Lemma b58_fold_digits (bytes : list byte) (digits : list Z) :
  b58_digits digits ->
  b58_digits (fold_left (fun ds x => b58_muladd ds (u8 x)) bytes digits).
Proof.
  revert digits. induction bytes as [|x bytes IH]; intros digits Hd; simpl;
    [exact Hd | apply IH, b58_muladd_digits].
Qed.

Lemma b58_fold_value (bytes : list byte) (digits : list Z) :
  b58_digits digits ->
  b58_value digits
  <= b58_value (fold_left (fun ds x => b58_muladd ds (u8 x)) bytes digits).
Proof.
  revert digits. induction bytes as [|x bytes IH]; intros digits Hd; simpl;
    [lia|].
  pose proof (u8_range x) as Hx. pose proof (b58_value_nonneg digits Hd) as Hv.
  specialize (IH (b58_muladd digits (u8 x)) (b58_muladd_digits _ _)).
  rewrite b58_muladd_value in IH by (assumption || lia). lia.
Qed.

Lemma skip_zero_digits_nonempty (digits : list Z) :
  b58_digits digits -> 0 < b58_value digits -> skip_zero_digits (rev digits) <> [].
Proof.
  intros Hd Hpos Hskip.
  assert (Hzero : forall ds, skip_zero_digits ds = [] -> Forall (fun d => d = 0) ds).
  { induction ds as [|d ds IH]; simpl; [constructor|].
    destruct (Z.eqb_spec d 0) as [->|]; [|discriminate].
    intros H. constructor; [reflexivity | now apply IH]. }
  apply Hzero in Hskip. rewrite Forall_forall in Hskip.
  assert (Hall : forall ds, (forall d, In d ds -> d = 0) -> b58_value ds = 0).
  { induction ds as [|d ds IH]; simpl; intros H; [reflexivity|].
    rewrite (H d) by now left. rewrite IH; [reflexivity|].
    intros d' Hin. apply H. now right. }
  rewrite Hall in Hpos; [lia|].
  intros d Hin. apply Hskip, in_rev. now rewrite rev_involutive.
Qed.

Lemma b58_char_class (d : Z) : 0 <= d < 58 -> is_base58btc_char (b58_char d) = true.
Proof. exact (check_below 58 (fun d => is_base58btc_char (b58_char d)) eq_refl d). Qed.

Lemma string_forallb_of_list (p : ascii -> bool) (chars : list ascii) :
  string_forallb p (string_of_list_ascii chars) = forallb p chars.
Proof. induction chars as [|c chars IH]; simpl; [reflexivity | now rewrite IH]. Qed.

Lemma strip_prefix_append (prefix rest : string) :
  strip_prefix prefix (prefix ++ rest) = Some rest.
Proof.
  induction prefix as [|p prefix IH]; simpl; [now destruct rest|].
  now rewrite Ascii.eqb_refl.
Qed.

(** The encoding of a buffer that starts with a non-zero byte is a non-empty
    word over the base58btc alphabet. *)
Lemma base58btc_encode_class (first : byte) (rest : list byte) :
  first <> x00 ->
  base58btc_encode (first :: rest) <> "" /\
  string_forallb is_base58btc_char (base58btc_encode (first :: rest)) = true.
Proof.
  intros Hfirst. unfold base58btc_encode.
  assert (Hz : leading_zero_bytes (first :: rest) = O)
    by (destruct first; try reflexivity; contradiction).
  rewrite Hz. cbn [repeat_string skipn append fold_left].
  set (digits := fold_left (fun ds x => b58_muladd ds (u8 x)) rest
                   (b58_muladd [] (u8 first))).
  assert (Hd : b58_digits digits) by apply b58_fold_digits, b58_muladd_digits.
  assert (Hpos : 0 < b58_value digits).
  { pose proof (b58_fold_value rest _ (b58_muladd_digits [] (u8 first))) as H.
    fold digits in H. pose proof (u8_range first) as Hr.
    rewrite b58_muladd_value in H by (constructor || lia). cbn [b58_value] in H.
    assert (u8 first <> 0).
    { intros H0. apply Hfirst. rewrite <- (to_u8_u8 first), H0. reflexivity. }
    lia. }
  pose proof (skip_zero_digits_nonempty digits Hd Hpos) as Hne.
  assert (Hsub : b58_digits (skip_zero_digits (rev digits))).
  { assert (Hrev : b58_digits (rev digits)) by now apply Forall_rev.
    revert Hrev. generalize (rev digits). induction 1 as [|d ds Hd0 Hds IH];
      simpl; [constructor|].
    destruct (d =? 0); [exact IH | now constructor]. }
  split.
  - destruct (skip_zero_digits (rev digits)); [contradiction | discriminate].
  - rewrite string_forallb_of_list. apply forallb_forall. intros c Hin.
    apply in_map_iff in Hin as (d & <- & Hin).
    apply b58_char_class. revert d Hin. now apply Forall_forall.
Qed.

Lemma encodeDID_buffer (publicKey : list byte) :
  encodeDID publicKey
  = Ok ("did:key:z" ++ base58btc_encode (xe7 :: x01 :: publicKey)).
Proof.
  unfold encodeDID, ta_alloc.
  rewrite Nat.add_comm. cbn [Nat.add repeat ta_store].
  replace (xe7 :: x01 :: repeat x00 (List.length publicKey))
    with ([xe7; x01] ++ repeat x00 (List.length publicKey) ++ [])%list
    by now rewrite app_nil_r.
  rewrite (ta_set_app [xe7; x01] _ [] publicKey 2)
    by (reflexivity || apply repeat_length).
  cbn [bind]. now rewrite app_nil_r.
Qed.

(** C8. [encodeDID] returns ["did:key:z"] followed by the base58btc encoding
    of a buffer of length (key length + 2) whose byte 0 is [0xe7], whose
    byte 1 is [0x01] and whose remaining bytes are the public key.  The
    result is a function of the key alone, and it matches
    [^did:key:z[1-9A-HJ-NP-Za-km-z]+$]. *)
Theorem encodeDID_multicodec_base58btc :
  forall publicKey : list byte,
    (exists bytes : list byte,
        List.length bytes = (List.length publicKey + 2)%nat /\
        nth_error bytes 0 = Some xe7 /\
        nth_error bytes 1 = Some x01 /\
        skipn 2 bytes = publicKey /\
        encodeDID publicKey = Ok ("did:key:z" ++ base58btc_encode bytes) /\
        matches_did_key ("did:key:z" ++ base58btc_encode bytes) = true) /\
    (forall publicKey' : list byte,
        publicKey' = publicKey -> encodeDID publicKey' = encodeDID publicKey).
Proof.
  intros publicKey. split.
  - exists (xe7 :: x01 :: publicKey).
    split; [cbn [List.length]; lia|].
    split; [reflexivity|]. split; [reflexivity|]. split; [reflexivity|].
    split; [apply encodeDID_buffer|].
    unfold matches_did_key. rewrite strip_prefix_append.
    destruct (base58btc_encode_class xe7 (x01 :: publicKey)) as [Hne Hclass];
      [discriminate|].
    rewrite Hclass, andb_true_r. apply negb_true_iff, String.eqb_neq, Hne.
  - intros publicKey' ->. reflexivity.
Qed.

Lemma encodeDID_multicodec_base58btc_witness :
  encodeDID (x02 :: repeat x11 32) = encodeDID (x02 :: repeat x11 32) /\
  encodeDID (x02 :: repeat x11 32)
  = Ok "did:key:zQ3shNZQnGqtqxokGkoVtFWnG9v6TJT43E3rfPxzc1eHqx3qJ".
Proof.
  split.
  - now apply (proj2 (encodeDID_multicodec_base58btc (x02 :: repeat x11 32))).
  - reflexivity.
Defined.

(** ** Signers *)

Lemma ta_set_length (target source result : list byte) (offset : nat) :
  ta_set target source offset = Ok result ->
  List.length result = List.length target.
Proof.
  unfold ta_set.
  destruct (Nat.ltb_spec (List.length target) (offset + List.length source))
    as [|Hfit]; [discriminate|].
  intros [= <-].
  rewrite !length_app, length_firstn, length_skipn. lia.
Qed.

Lemma toJose_bytes_plain_length (sig : EcdsaSignature) (jose : list byte) :
  toJose_bytes sig false = Ok jose -> List.length jose = 64%nat.
Proof.
  unfold toJose_bytes.
  destruct (base16_decode (r sig)) as [rbytes|]; cbn [bind]; [|discriminate].
  destruct (ta_set (ta_alloc 64) rbytes 0) as [jose1|] eqn:E1; cbn [bind];
    [|discriminate].
  destruct (base16_decode (s sig)) as [sbytes|]; cbn [bind]; [|discriminate].
  destruct (ta_set jose1 sbytes 32) as [jose2|] eqn:E2; cbn [bind];
    [|discriminate].
  intros [= <-].
  apply ta_set_length in E1, E2. rewrite E2, E1. apply repeat_length.
Qed.

Lemma is_hex_zeros (n : nat) : string_forallb is_hex (repeat_string "0" n) = true.
Proof. induction n as [|n IH]; [reflexivity | exact IH]. Qed.

(** Left-padding base16 text of at most 64 characters gives the text of
    exactly 32 bytes. *)
Lemma leftpad_hex (h : string) :
  string_forallb is_hex h = true -> (String.length h <= 64)%nat ->
  exists (padded : string) (bytes : list byte),
    leftpad h leftpad_default_size = Ok padded /\
    padded = repeat_string "0" (64 - String.length h) ++ h /\
    base16_decode padded = Ok bytes /\ List.length bytes = 32%nat.
Proof.
  intros Hhex Hlen. unfold leftpad_default_size.
  pose proof (leftpad_short h 64 ltac:(lia)) as Hpad.
  change (Z.to_nat 64) with 64%nat in Hpad.
  set (padded := repeat_string "0" (64 - String.length h) ++ h) in *.
  assert (Hplen : String.length padded = 64%nat).
  { unfold padded. rewrite length_append, length_repeat_char. lia. }
  assert (Hphex : string_forallb is_hex padded = true)
    by (unfold padded; now rewrite string_forallb_append, is_hex_zeros, Hhex).
  destruct (base16_decode_total padded Hphex) as [bytes Hbytes];
    [now rewrite Hplen|].
  exists padded, bytes. repeat split; try assumption.
  apply (base16_decode_length _ _ Hphex) in Hbytes. lia.
Qed.

(** C10. The remote signer encodes what the signing service returns with
    the recoverable flag fixed to [false]: its result does not depend on the
    returned [recid]; whenever it resolves, the text decodes to exactly 64
    bytes; and [r] and [s] go to [toJose] as returned, without [leftpad], so
    for components of at most 32 bytes it resolves, each component starting
    its 32-byte field and shorter components being followed by zeros. *)
Theorem ES256KSignerWithLit_is_non_recoverable :
  forall (collaborators : Collaborators) (data : SignData)
         (sig1 : LitActionSignature),
    litActionSignAndGetSignature (sha256 data) = Ok sig1 ->
    (forall rp : RecoveryParam,
        ES256KSignerWithLit data
        = (jose <- toJose {| r := lit_r sig1; s := lit_s sig1;
                             recoveryParam := rp |} false ;;
           Ok (PreEncoded jose))) /\
    (forall out : SignerOutput,
        ES256KSignerWithLit data = Ok out ->
        exists (jose : string) (bytes : list byte),
          out = PreEncoded jose /\
          base64ToBytes jose = Ok bytes /\ List.length bytes = 64%nat) /\
    (forall rbytes sbytes : list byte,
        base16_decode (lit_r sig1) = Ok rbytes ->
        base16_decode (lit_s sig1) = Ok sbytes ->
        (List.length rbytes <= 32)%nat ->
        (List.length sbytes <= 32)%nat ->
        exists bytes : list byte,
          ES256KSignerWithLit data = Ok (PreEncoded (bytesToBase64url bytes)) /\
          List.length bytes = 64%nat /\
          ta_slice bytes 0 32
          = (rbytes ++ repeat x00 (32 - List.length rbytes))%list /\
          ta_slice bytes 32 64
          = (sbytes ++ repeat x00 (32 - List.length sbytes))%list).
Proof.
  intros collaborators data sig1 Hlit.
  assert (Hrun : forall rp,
             ES256KSignerWithLit data
             = (jose <- toJose {| r := lit_r sig1; s := lit_s sig1;
                                  recoveryParam := rp |} false ;;
                Ok (PreEncoded jose))).
  { intros rp. unfold ES256KSignerWithLit. rewrite Hlit. reflexivity. }
  split; [exact Hrun|]. split.
  - intros out. rewrite (Hrun RPUndefined). unfold toJose.
    destruct (toJose_bytes _ false) as [bytes|] eqn:E; cbn [bind];
      [|discriminate].
    intros [= <-]. exists (bytesToBase64url bytes), bytes.
    split; [reflexivity|].
    split; [apply base64ToBytes_bytesToBase64url|].
    exact (toJose_bytes_plain_length _ _ E).
  - intros rbytes sbytes Hr Hs Hrlen Hslen.
    exists (jose_fields rbytes sbytes).
    rewrite (Hrun RPUndefined). unfold toJose.
    rewrite (toJose_bytes_plain
               {| r := lit_r sig1; s := lit_s sig1; recoveryParam := RPUndefined |}
               rbytes sbytes Hr Hs Hrlen Hslen). cbn [bind].
    split; [reflexivity|]. split; [now apply jose_fields_length|].
    rewrite <- (app_nil_r (jose_fields rbytes sbytes)).
    now apply jose_fields_slices.
Qed.

Lemma ES256KSignerWithLit_is_non_recoverable_witness :
  @ES256KSignerWithLit fixed_collaborators (DataString "abc")
  = (jose <- toJose {| r := "01"; s := "ff"; recoveryParam := RPNumber 0 |}
                    false ;;
     Ok (PreEncoded jose)).
Proof.
  exact (proj1 (ES256KSignerWithLit_is_non_recoverable
                  fixed_collaborators (DataString "abc")
                  {| lit_r := "01"; lit_s := "ff"; lit_recid := 1 |} eq_refl)
               (RPNumber 0)).
Defined.

Lemma ES256KSigner_sign_text (collaborators : Collaborators)
  (privateKey : list byte) (recoverable : bool) (data : SignData)
  (sig : EcdsaSignature) :
  ES256KSigner_sign privateKey recoverable data <> Ok (Structured sig).
Proof.
  unfold ES256KSigner_sign.
  destruct (keyPair_sign privateKey (sha256 data)) as [[rn sn] rp].
  destruct (leftpad (BN_toString_hex rn) leftpad_default_size);
    cbn [bind]; [|discriminate].
  destruct (leftpad (BN_toString_hex sn) leftpad_default_size);
    cbn [bind]; [|discriminate].
  destruct (toJose _ recoverable); cbn [bind]; discriminate.
Qed.

Lemma ES256KSigner_sign_padded (collaborators : Collaborators)
  (privateKey : list byte) (recoverable : bool) (data : SignData)
  (rn sn : BN) (rp : RecoveryParam) :
  keyPair_sign privateKey (sha256 data) = (rn, sn, rp) ->
  string_forallb is_hex (BN_toString_hex rn) = true ->
  (String.length (BN_toString_hex rn) <= 64)%nat ->
  string_forallb is_hex (BN_toString_hex sn) = true ->
  (String.length (BN_toString_hex sn) <= 64)%nat ->
  exists (rpad spad : string) (rbytes sbytes : list byte),
    leftpad (BN_toString_hex rn) 64 = Ok rpad /\
    leftpad (BN_toString_hex sn) 64 = Ok spad /\
    base16_decode rpad = Ok rbytes /\ List.length rbytes = 32%nat /\
    base16_decode spad = Ok sbytes /\ List.length sbytes = 32%nat /\
    ES256KSigner_sign privateKey recoverable data
    = (jose <- toJose {| r := rpad; s := spad; recoveryParam := rp |}
                      recoverable ;;
       Ok (PreEncoded jose)) /\
    (recoverable = false ->
     ES256KSigner_sign privateKey recoverable data
     = Ok (PreEncoded (bytesToBase64url (rbytes ++ sbytes)))).
Proof.
  intros Hsign Hrh Hrl Hsh Hsl. unfold ES256KSigner_sign. rewrite Hsign.
  destruct (leftpad_hex _ Hrh Hrl) as (rpad & rbytes & Hrp & _ & Hrb & Hrn).
  destruct (leftpad_hex _ Hsh Hsl) as (spad & sbytes & Hsp & _ & Hsb & Hsn).
  exists rpad, spad, rbytes, sbytes.
  unfold leftpad_default_size in *. rewrite Hrp, Hsp. cbn [bind].
  repeat (split; [assumption || reflexivity|]).
  intros ->. unfold toJose.
  rewrite (toJose_bytes_plain
             {| r := rpad; s := spad; recoveryParam := rp |}
             rbytes sbytes Hrb Hsb) by lia.
  cbn [bind]. now rewrite jose_fields_full.
Qed.


(** C3, as the code has it.  [ES256KSigner] throws the bad-key error for
    every private key whose length is not 32.  For a key of 32 bytes it
    returns a signer that never resolves to a structured [EcdsaSignature]:
    it signs the SHA-256 digest of the message with the key, left-pads
    [r] and [s] to 64 base16 characters (32 bytes each) and resolves to the
    JOSE text [toJose] makes of them; without the recoverable flag that text
    encodes the 32 bytes of [r] followed by the 32 bytes of [s]. *)
Theorem ES256KSigner_checks_key_and_returns_jose :
  forall (collaborators : Collaborators) (privateKey : list byte)
         (recoverable : bool),
    (List.length privateKey <> 32%nat ->
     ES256KSigner privateKey recoverable
     = Err (BadKeyFormat (List.length privateKey))) /\
    (List.length privateKey = 32%nat ->
     exists signer : Signer,
       ES256KSigner privateKey recoverable = Ok signer /\
       (forall (data : SignData) (sig : EcdsaSignature),
           signer data <> Ok (Structured sig)) /\
       (forall (data : SignData) (rn sn : BN) (rp : RecoveryParam),
           keyPair_sign privateKey (sha256 data) = (rn, sn, rp) ->
           string_forallb is_hex (BN_toString_hex rn) = true ->
           (String.length (BN_toString_hex rn) <= 64)%nat ->
           string_forallb is_hex (BN_toString_hex sn) = true ->
           (String.length (BN_toString_hex sn) <= 64)%nat ->
           exists (rpad spad : string) (rbytes sbytes : list byte),
             leftpad (BN_toString_hex rn) 64 = Ok rpad /\
             leftpad (BN_toString_hex sn) 64 = Ok spad /\
             base16_decode rpad = Ok rbytes /\ List.length rbytes = 32%nat /\
             base16_decode spad = Ok sbytes /\ List.length sbytes = 32%nat /\
             signer data
             = (jose <- toJose {| r := rpad; s := spad; recoveryParam := rp |}
                               recoverable ;;
                Ok (PreEncoded jose)) /\
             (recoverable = false ->
              signer data
              = Ok (PreEncoded (bytesToBase64url (rbytes ++ sbytes)))))).
Proof.
  intros collaborators privateKey recoverable. unfold ES256KSigner. split.
  - intros Hlen. apply Nat.eqb_neq in Hlen. now rewrite Hlen.
  - intros Hlen. rewrite Hlen. cbn [Nat.eqb negb].
    exists (ES256KSigner_sign privateKey recoverable).
    split; [reflexivity|]. split.
    + intros data sig. apply ES256KSigner_sign_text.
    + intros data rn sn rp. apply ES256KSigner_sign_padded.
Qed.

Lemma ES256KSigner_checks_key_and_returns_jose_witness :
  @ES256KSigner fixed_collaborators (repeat x01 31) false
  = Err (BadKeyFormat 31) /\
  exists signer : Signer,
    @ES256KSigner fixed_collaborators (repeat x01 32) false = Ok signer /\
    forall (data : SignData) (sig : EcdsaSignature),
      signer data <> Ok (Structured sig).
Proof.
  split.
  - apply (proj1 (ES256KSigner_checks_key_and_returns_jose
                    fixed_collaborators (repeat x01 31) false)).
    simpl; lia.
  - destruct (proj2 (ES256KSigner_checks_key_and_returns_jose
                       fixed_collaborators (repeat x01 32) false) eq_refl)
      as (signer & Hsigner & Hjose & _).
    exists signer. split; assumption.
Defined.

(** C3 as stated fails: with a key of 32 bytes the signer resolves to the
    JOSE text of the signature, a string, not to a structured
    [EcdsaSignature]. *)
Lemma ES256KSigner_resolves_to_text :
  exists signer : Signer,
    @ES256KSigner fixed_collaborators (repeat x01 32) false = Ok signer /\
    signer (DataString "abc")
    = Ok (PreEncoded
            "AAAAAAAAAAAAAAAAAAAAAAAAAAAAAAAAAAAAAAAAAAEAAAAAAAAAAAAAAAAAAAAAAAAAAAAAAAAAAAAAAAAA_w") /\
    forall sig : EcdsaSignature,
      signer (DataString "abc") <> Ok (Structured sig).
Proof.
  eexists. split; [reflexivity|]. split; [reflexivity | discriminate].
Qed.

(** ** Objects *)

Lemma obj_get_set_same (key : string) (value : json) (obj : object) :
  obj_get key (obj_set key value obj) = Some value.
Proof.
  induction obj as [|[k v] rest IH]; simpl.
  - now rewrite String.eqb_refl.
  - destruct (String.eqb k key) eqn:E; simpl; rewrite E; [reflexivity | exact IH].
Qed.

Lemma obj_get_set_other (key key' : string) (value : json) (obj : object) :
  key' <> key ->
  obj_get key (obj_set key' value obj) = obj_get key obj.
Proof.
  intros Hne. apply String.eqb_neq in Hne.
  induction obj as [|[k v] rest IH]; simpl.
  - now rewrite Hne.
  - destruct (String.eqb_spec k key') as [->|Hk]; simpl.
    + now rewrite Hne.
    + now rewrite IH.
Qed.

Lemma leb_refl (a : string) : String.leb a a = true.
Proof. now destruct (String.leb_total a a). Qed.

Lemma obj_get_insert_member (key : string) (kv : string * json) (obj : object) :
  obj_get key (insert_member kv obj)
  = if String.eqb (fst kv) key then Some (snd kv) else obj_get key obj.
Proof.
  destruct kv as [k v]. cbn [fst snd].
  induction obj as [|[k' v'] rest IH]; [reflexivity|].
  cbn [insert_member fst].
  destruct (String.leb k k') eqn:Hle; [reflexivity|].
  cbn [obj_get]. rewrite IH.
  destruct (String.eqb_spec k' key) as [->|Hk']; [|reflexivity].
  destruct (String.eqb_spec k key) as [->|Hk]; [|reflexivity].
  now rewrite leb_refl in Hle.
Qed.

Lemma obj_get_sort_members (key : string) (obj : object) :
  obj_get key (sort_members obj) = obj_get key obj.
Proof.
  induction obj as [|[k v] rest IH]; [reflexivity|].
  cbn [sort_members fold_right]. fold (sort_members rest).
  now rewrite obj_get_insert_member, IH.
Qed.

Lemma obj_get_toStableObject (key : string) (obj : object) :
  obj_get key (toStableObject obj) = option_map stable (obj_get key obj).
Proof.
  unfold toStableObject. rewrite obj_get_sort_members.
  induction obj as [|[k v] rest IH]; [reflexivity|].
  cbn [map obj_get fst snd]. destruct (String.eqb k key); [reflexivity | exact IH].
Qed.

(** The header [sign] builds always carries the forced [kid] and [alg]. *)
Lemma forced_header_members (protectedHeader : object) (kid : string) :
  let header :=
    toStableObject
      (Object_assign protectedHeader
         [("kid", JStr kid); ("alg", JStr "ES256K")]) in
  obj_get "kid" header = Some (JStr kid) /\
  obj_get "alg" header = Some (JStr "ES256K").
Proof.
  cbn zeta. rewrite !obj_get_toStableObject. unfold Object_assign.
  cbn [fold_left fst snd]. split.
  - rewrite obj_get_set_other by discriminate.
    now rewrite obj_get_set_same.
  - now rewrite obj_get_set_same.
Qed.

(** ** [createJWS] *)

Lemma encodeSection_alphabet (data : json) :
  string_forallb is_b64 (encodeSection data) = true.
Proof. apply base64url_encode_alphabet. Qed.

Lemma encodeSection_no_dot (data : json) : count_char "." (encodeSection data) = O.
Proof. apply base64url_no_dot, encodeSection_alphabet. Qed.

Lemma toJose_no_dot (sig : EcdsaSignature) (recoverable : bool) (jose : string) :
  toJose sig recoverable = Ok jose -> count_char "." jose = O.
Proof.
  unfold toJose. destruct (toJose_bytes sig recoverable); cbn [bind];
    [|discriminate].
  intros [= <-]. apply base64url_no_dot, base64url_encode_alphabet.
Qed.

(** With [alg] set to ["ES256K"], [createJWS] signs with the plain ES256K
    algorithm and appends the signature to the signing input. *)
Lemma createJWS_ES256K (payload : json) (signer : Signer) (header : object) :
  obj_get "alg" header = Some (JStr "ES256K") ->
  createJWS payload signer header
  = (signature <-
       ES256KSignerAlg false
         (encodeSection (JObj header) ++ "."
            ++ match payload with
               | JStr text => text
               | _ => encodeSection payload
               end) signer ;;
     Ok ((encodeSection (JObj header) ++ "."
            ++ match payload with
               | JStr text => text
               | _ => encodeSection payload
               end) ++ "." ++ signature)).
Proof.
  intros Halg. unfold createJWS. rewrite Halg.
  change (js_falsy (Some (JStr "ES256K"))) with false. cbn iota.
  rewrite Halg. reflexivity.
Qed.

Lemma toGeneralJWS_protected (header rest : string) :
  count_char "." header = O ->
  exists entry : JWSSignature,
    jws_signatures (toGeneralJWS (header ++ "." ++ rest)) = [entry] /\
    sig_protected entry = Some header.
Proof.
  intros Hdot. unfold toGeneralJWS. cbn [jws_signatures].
  change (header ++ "." ++ rest) with (header ++ String "." rest).
  rewrite split_append by exact Hdot.
  eexists. split; reflexivity.
Qed.

(** C4, as the code has it.  Whenever the signer's signature arrives,
    [createJWS] with an empty header sets [alg] to ["ES256K"] and returns
    header, payload and signature joined by dots; [toGeneralJWS] of the
    result has one signature entry whose [protected] is the base64url text
    of the JSON [{"alg":"ES256K"}].  The result has exactly two dots when
    neither the encoded payload nor the signature text contains one: a
    payload that is not a string is base64url text and has none, and neither
    has the [toJose] encoding of a structured signature; a string payload is
    copied as it is, dots included. *)
Theorem createJWS_defaults_alg :
  forall (payload : json) (signer : Signer) (signature : string),
    let header := JObj [("alg", JStr "ES256K")] in
    let encodedPayload :=
      match payload with
      | JStr text => text
      | _ => encodeSection payload
      end in
    let signingInput := encodeSection header ++ "." ++ encodedPayload in
    ES256KSignerAlg false signingInput signer = Ok signature ->
    createJWS payload signer [] = Ok (signingInput ++ "." ++ signature) /\
    (exists entry : JWSSignature,
        jws_signatures (toGeneralJWS (signingInput ++ "." ++ signature))
        = [entry] /\
        sig_protected entry = Some (encodeSection header)) /\
    encodeSection header = "eyJhbGciOiJFUzI1NksifQ" /\
    base64ToBytes (encodeSection header)
    = Ok (list_byte_of_string (JSON_stringify header)) /\
    JSON_stringify header
    = "{" ++ json_quote "alg" ++ ":" ++ json_quote "ES256K" ++ "}" /\
    ((forall text : string, payload <> JStr text) ->
     count_char "." encodedPayload = O) /\
    ((exists sig : EcdsaSignature,
         signer (DataString signingInput) = Ok (Structured sig)) ->
     count_char "." signature = O) /\
    (count_char "." encodedPayload = O -> count_char "." signature = O ->
     count_char "." (signingInput ++ "." ++ signature) = 2%nat /\
     List.length (split "." (signingInput ++ "." ++ signature)) = 3%nat).
Proof.
  intros payload signer signature header encodedPayload signingInput Hsig.
  split; [|split; [|split; [|split; [|split; [|split; [|split]]]]]].
  - change (createJWS payload signer [])
      with (createJWS payload signer [("alg", JStr "ES256K")]).
    rewrite createJWS_ES256K by reflexivity.
    fold header. fold encodedPayload. fold signingInput.
    now rewrite Hsig.
  - unfold signingInput. rewrite append_assoc.
    apply toGeneralJWS_protected, encodeSection_no_dot.
  - reflexivity.
  - reflexivity.
  - reflexivity.
  - intros Hpayload. unfold encodedPayload.
    destruct payload; try apply encodeSection_no_dot.
    now destruct (Hpayload s0).
  - intros [sig Hstructured]. unfold ES256KSignerAlg in Hsig.
    rewrite Hstructured in Hsig. cbn [bind] in Hsig.
    exact (toJose_no_dot _ _ _ Hsig).
  - intros Hpayload Hsignature. rewrite split_length. unfold signingInput.
    rewrite !count_char_append, Hpayload, Hsignature, encodeSection_no_dot.
    split; reflexivity.
Qed.

Lemma createJWS_defaults_alg_witness :
  createJWS (JObj [("aud", JStr "app")]) fixed_signer []
  = Ok ("eyJhbGciOiJFUzI1NksifQ.eyJhdWQiOiJhcHAifQ"
          ++ "." ++ "AQAAAAAAAAAAAAAAAAAAAAAAAAAAAAAAAAAAAAAAAAD_AAAAAAAAAAAAAAAAAAAAAAAAAAAAAAAAAAAAAAAAAA").
Proof.
  exact (proj1 (createJWS_defaults_alg (JObj [("aud", JStr "app")]) fixed_signer
                  "AQAAAAAAAAAAAAAAAAAAAAAAAAAAAAAAAAAAAAAAAAD_AAAAAAAAAAAAAAAAAAAAAAAAAAAAAAAAAAAAAAAAAA"
                  eq_refl)).
Defined.

(** C4 as stated fails: a string payload is copied into the compact form as
    it is, so a payload with a dot gives a result with three dots. *)
Lemma createJWS_string_payload_keeps_dots :
  createJWS (JStr "a.b") fixed_signer []
  = Ok ("eyJhbGciOiJFUzI1NksifQ" ++ "." ++ "a.b" ++ "."
          ++ "AQAAAAAAAAAAAAAAAAAAAAAAAAAAAAAAAAAAAAAAAAD_AAAAAAAAAAAAAAAAAAAAAAAAAAAAAAAAAAAAAAAAAA") /\
  count_char "."
    ("eyJhbGciOiJFUzI1NksifQ" ++ "." ++ "a.b" ++ "."
       ++ "AQAAAAAAAAAAAAAAAAAAAAAAAAAAAAAAAAAAAAAAAAD_AAAAAAAAAAAAAAAAAAAAAAAAAAAAAAAAAAAAAAAAAA")
  = 3%nat.
Proof. split; reflexivity. Qed.

(** ** [did_createJWS] *)



(** The accepted request, evaluated: the caller's [alg] and [kid] are
    overwritten, the members appear in key order. *)
Example did_createJWS_accepted :
  exists entry : JWSSignature,
    option_map (fun res => jws_signatures (jws res))
      (match @did_createJWS fixed_collaborators
               {| did := "did:key:zABC"; secretKey := repeat x01 32 |}
               {| params_did := "did:key:zABC#zABC";
                  params_payload := JObj [("hello", JStr "world")];
                  params_protected :=
                    Some [("alg", JStr "none"); ("kid", JStr "other")] |}
       with
       | Ok res => Some res
       | Err _ => None
       end)
    = Some [entry] /\
    option_map base64ToBytes (sig_protected entry)
    = Some (Ok (list_byte_of_string
                  (JSON_stringify
                     (JObj [("alg", JStr "ES256K");
                            ("kid", JStr "did:key:zABC#zABC")])))).
Proof. eexists. split; reflexivity. Qed.

(** * Further properties *)

(** ** [hexToBytes] *)

Lemma to_lower_hex (c : ascii) : is_hex c = true -> to_lower_ascii c = c.
Proof.
  unfold is_hex. destruct (hex_value c) as [v|] eqn:E; [|discriminate].
  intros _. apply hex_value_sound in E as [Hv <-].
  pose proof (check_below 16
    (fun v => Ascii.eqb (to_lower_ascii (hex_char v)) (hex_char v))
    eq_refl v Hv) as H.
  now apply Ascii.eqb_eq in H.
Qed.

Lemma toLowerCase_hex (a : string) :
  string_forallb is_hex a = true -> toLowerCase a = a.
Proof.
  induction a as [|c a IH]; [reflexivity|].
  cbn [string_forallb toLowerCase string_map]. intros H.
  apply andb_true_iff in H as [Hc Ha].
  fold (toLowerCase a). now rewrite (to_lower_hex c Hc), (IH Ha).
Qed.

(** Text whose lowercase form is base16 text does not start with [0x]. *)
Lemma lower_hex_no_prefix (a : string) :
  string_forallb is_hex (toLowerCase a) = true -> strip_prefix "0x" a = None.
Proof.
  destruct a as [|c1 [|c2 rest]]; [reflexivity | |].
  - intros _. cbn [strip_prefix]. now destruct (Ascii.eqb "0" c1).
  - cbn [toLowerCase string_map string_forallb strip_prefix]. intros H.
    apply andb_true_iff in H as [_ H]. apply andb_true_iff in H as [H2 _].
    destruct (Ascii.eqb "0" c1); [|reflexivity].
    destruct (Ascii.eqb_spec "x" c2) as [<-|]; [discriminate | reflexivity].
Qed.

(** X1. [hexToBytes] inverts [bytesToHex] whatever the case of the letters
    and with or without one leading [0x]: text whose lowercase form is the
    base16 text of [b] decodes to [b]. *)
Theorem hexToBytes_inverts_bytesToHex :
  forall (text : string) (b : list byte),
    toLowerCase text = bytesToHex b ->
    hexToBytes text = Ok b /\ hexToBytes ("0x" ++ text) = Ok b.
Proof.
  intros text b Hlower.
  assert (Hhex : string_forallb is_hex (toLowerCase text) = true)
    by (rewrite Hlower; apply base16_encode_alphabet).
  assert (Hdec : base16_decode (toLowerCase text) = Ok b)
    by (rewrite Hlower; apply base16_decode_encode).
  split.
  - unfold hexToBytes. now rewrite (lower_hex_no_prefix text Hhex).
  - unfold hexToBytes.
    change (strip_prefix "0x" ("0x" ++ text)) with (Some text).
    exact Hdec.
Qed.

Lemma hexToBytes_inverts_bytesToHex_witness :
  hexToBytes "E701aB" = Ok [xe7; x01; xab] /\
  hexToBytes ("0x" ++ "E701aB") = Ok [xe7; x01; xab].
Proof. apply hexToBytes_inverts_bytesToHex. reflexivity. Defined.

(** X2. Only one lowercase [0x] is taken as a prefix: text that starts with
    [0X], or with a second [0x] after the first, is rejected as not being
    base16 text, whatever follows. *)
Theorem hexToBytes_rejects_other_prefixes :
  forall rest : string,
    hexToBytes ("0X" ++ rest) = Err (SyntaxError "Non-base16 character") /\
    hexToBytes ("0x0x" ++ rest) = Err (SyntaxError "Non-base16 character").
Proof.
  assert (Hx : forall tail : string,
             base16_decode (String "0" (String "x" tail))
             = Err (SyntaxError "Non-base16 character")).
  { intros tail. unfold base16_decode. cbn [strip_padding].
    destruct (strip_padding tail); reflexivity. }
  intros rest. split; unfold hexToBytes.
  - change (strip_prefix "0x" ("0X" ++ rest)) with (@None string).
    apply Hx.
  - change (strip_prefix "0x" ("0x0x" ++ rest)) with (Some ("0x" ++ rest)).
    apply Hx.
Qed.

(** ** [fromJose] and [toJose] *)

Lemma ta_slice_length (b : list byte) (from to : nat) :
  (to <= List.length b)%nat ->
  List.length (ta_slice b from to) = (to - from)%nat.
Proof.
  intros H. unfold ta_slice. rewrite length_firstn, length_skipn. lia.
Qed.

(** Every accepted signature splits into its two 32-byte halves and, for 65
    bytes, the last byte. *)
Lemma fromJose_halves (signature : string) (sig : EcdsaSignature) :
  fromJose signature = Ok sig ->
  exists bytes : list byte,
    base64ToBytes signature = Ok bytes /\
    r sig = bytesToHex (ta_slice bytes 0 32) /\
    s sig = bytesToHex (ta_slice bytes 32 64) /\
    List.length (ta_slice bytes 0 32) = 32%nat /\
    List.length (ta_slice bytes 32 64) = 32%nat /\
    ((List.length bytes = 64%nat /\ recoveryParam sig = RPUndefined /\
      bytes = (ta_slice bytes 0 32 ++ ta_slice bytes 32 64)%list) \/
     (exists last : byte,
         List.length bytes = 65%nat /\ recoveryParam sig = RPNumber (u8 last) /\
         bytes = (ta_slice bytes 0 32 ++ ta_slice bytes 32 64 ++ [last])%list)).
Proof.
  unfold fromJose.
  destruct (base64ToBytes signature) as [bytes|] eqn:Hdec; cbn [bind];
    [|discriminate].
  destruct (Nat.ltb_spec (List.length bytes) 64) as [|Hge]; [discriminate|].
  destruct (Nat.ltb_spec 65 (List.length bytes)) as [|Hle]; [discriminate|].
  cbn [orb].
  assert (Hsplit : bytes
                   = (ta_slice bytes 0 32 ++ ta_slice bytes 32 64
                        ++ skipn 64 bytes)%list).
  { unfold ta_slice. rewrite skipn_O. change (32 - 0)%nat with 32%nat.
    change (64 - 32)%nat with 32%nat.
    rewrite <- (firstn_skipn 32 bytes) at 1. f_equal.
    rewrite <- (firstn_skipn 32 (skipn 32 bytes)) at 1. f_equal.
    now rewrite skipn_skipn. }
  assert (Hr : List.length (ta_slice bytes 0 32) = 32%nat)
    by (apply ta_slice_length; lia).
  assert (Hs : List.length (ta_slice bytes 32 64) = 32%nat)
    by (apply ta_slice_length; lia).
  destruct (Nat.eqb_spec (List.length bytes) 65) as [H65|Hne].
  - destruct (nth_error bytes 64) as [last|] eqn:Hlast.
    2: { apply nth_error_None in Hlast. lia. }
    assert (Htail : skipn 64 bytes = [last]).
    { pose proof (length_skipn 64 bytes) as Hl. rewrite H65 in Hl.
      rewrite <- (firstn_skipn 64 bytes), nth_error_app2 in Hlast
        by (rewrite length_firstn; lia).
      rewrite length_firstn in Hlast.
      replace (64 - Nat.min 64 (List.length bytes))%nat with O in Hlast by lia.
      destruct (skipn 64 bytes) as [|x [|y tail]]; try discriminate.
      now injection Hlast as ->. }
    rewrite Htail in Hsplit.
    intros [= <-]. exists bytes.
    repeat (split; [reflexivity || assumption|]).
    right. exists last. repeat split; assumption.
  - assert (Htail : skipn 64 bytes = []) by (apply skipn_all2; lia).
    rewrite Htail, app_nil_r in Hsplit.
    intros [= <-]. exists bytes.
    repeat (split; [reflexivity || assumption|]).
    left. repeat split; [lia | assumption].
Qed.

(** X3. Whatever [fromJose] returns is a well-formed signature: [r] and [s]
    are 64 lowercase base16 characters each, and [recoveryParam] is absent
    or a byte value. *)
Theorem fromJose_returns_fixed_width :
  forall (signature : string) (sig : EcdsaSignature),
    fromJose signature = Ok sig ->
    String.length (r sig) = 64%nat /\
    string_forallb is_hex (r sig) = true /\
    String.length (s sig) = 64%nat /\
    string_forallb is_hex (s sig) = true /\
    (recoveryParam sig = RPUndefined \/
     exists n : Z, recoveryParam sig = RPNumber n /\ 0 <= n < 256).
Proof.
  intros signature sig H.
  destruct (fromJose_halves signature sig H)
    as (bytes & _ & -> & -> & Hr & Hs & Hrp).
  unfold bytesToHex. rewrite !base16_encode_length, Hr, Hs.
  repeat split; try apply base16_encode_alphabet.
  destruct Hrp as [(_ & -> & _) | (last & _ & -> & _)]; [now left|].
  right. exists (u8 last). split; [reflexivity | apply u8_range].
Qed.

Lemma fromJose_returns_fixed_width_witness :
  String.length
    (r {| r := bytesToHex (repeat x07 32); s := bytesToHex (repeat x07 32);
          recoveryParam := RPUndefined |}) = 64%nat.
Proof.
  apply (fromJose_returns_fixed_width (bytesToBase64url (repeat x07 64))).
  reflexivity.
Defined.

(** X4. Converting an accepted signature back re-encodes its bytes: for a
    text of 64 bytes [toJose(fromJose(text), false)], and for a text of 65
    bytes [toJose(fromJose(text), true)], is the unpadded base64url text of
    those bytes, the given text itself when it is such text. *)
Theorem toJose_fromJose_reencodes :
  forall (signature : string) (bytes : list byte),
    base64ToBytes signature = Ok bytes ->
    (List.length bytes = 64%nat ->
     (sig <- fromJose signature ;; toJose sig false)
     = Ok (bytesToBase64url bytes)) /\
    (List.length bytes = 65%nat ->
     (sig <- fromJose signature ;; toJose sig true)
     = Ok (bytesToBase64url bytes)) /\
    (signature = bytesToBase64url bytes -> List.length bytes = 64%nat ->
     (sig <- fromJose signature ;; toJose sig false) = Ok signature).
Proof.
  intros signature bytes Hdec.
  assert (Hcases : forall sig, fromJose signature = Ok sig ->
             base16_decode (r sig) = Ok (ta_slice bytes 0 32) /\
             base16_decode (s sig) = Ok (ta_slice bytes 32 64) /\
             List.length (ta_slice bytes 0 32) = 32%nat /\
             List.length (ta_slice bytes 32 64) = 32%nat /\
             ((List.length bytes = 64%nat /\ recoveryParam sig = RPUndefined /\
               bytes = (ta_slice bytes 0 32 ++ ta_slice bytes 32 64)%list) \/
              (exists last : byte,
                  List.length bytes = 65%nat /\
                  recoveryParam sig = RPNumber (u8 last) /\
                  bytes = (ta_slice bytes 0 32 ++ ta_slice bytes 32 64
                             ++ [last])%list))).
  { intros sig Hsig.
    destruct (fromJose_halves signature sig Hsig)
      as (bytes' & Hdec' & Hr & Hs & Hrl & Hsl & Hrp).
    rewrite Hdec in Hdec'. injection Hdec' as <-.
    rewrite Hr, Hs. unfold bytesToHex. rewrite !base16_decode_encode. tauto. }
  assert (Hplain : List.length bytes = 64%nat ->
                   (sig <- fromJose signature ;; toJose sig false)
                   = Ok (bytesToBase64url bytes)).
  { intros Hlen.
    destruct (fromJose signature) as [sig|] eqn:Hsig.
    2: { unfold fromJose in Hsig. rewrite Hdec in Hsig. cbn [bind] in Hsig.
         rewrite Hlen in Hsig. discriminate. }
    cbn [bind].
    destruct (Hcases sig eq_refl) as (Hr & Hs & Hrl & Hsl & Hrp).
    unfold toJose.
    rewrite (toJose_bytes_plain sig _ _ Hr Hs) by lia. cbn [bind].
    rewrite jose_fields_full by assumption.
    destruct Hrp as [(_ & _ & <-) | (last & H65 & _)]; [reflexivity | lia]. }
  split; [exact Hplain|]. split.
  - intros Hlen.
    destruct (fromJose signature) as [sig|] eqn:Hsig.
    2: { unfold fromJose in Hsig. rewrite Hdec in Hsig. cbn [bind] in Hsig.
         rewrite Hlen in Hsig. discriminate. }
    cbn [bind].
    destruct (Hcases sig eq_refl) as (Hr & Hs & Hrl & Hsl & Hrp).
    unfold toJose.
    rewrite (toJose_bytes_recoverable sig _ _ Hr Hs) by lia.
    destruct Hrp as [(H64 & _) | (last & _ & -> & Hbytes)]; [lia|].
    cbn [bind recoveryParam_number].
    rewrite jose_fields_full by assumption.
    now rewrite to_u8_u8, <- app_assoc, <- Hbytes.
  - intros -> Hlen. now apply Hplain.
Qed.

Lemma toJose_fromJose_reencodes_witness :
  (sig <- fromJose (bytesToBase64url (repeat x07 64)) ;; toJose sig false)
  = Ok (bytesToBase64url (repeat x07 64)).
Proof.
  apply (proj1 (toJose_fromJose_reencodes
                  (bytesToBase64url (repeat x07 64)) (repeat x07 64) eq_refl)).
  reflexivity.
Defined.

(** ** [base64ToBytes] *)

Lemma string_map_append (f : ascii -> ascii) (a b : string) :
  string_map f (a ++ b) = string_map f a ++ string_map f b.
Proof. induction a as [|c a IH]; simpl; [reflexivity | now rewrite IH]. Qed.

Lemma string_filter_append (p : ascii -> bool) (a b : string) :
  string_filter p (a ++ b) = string_filter p a ++ string_filter p b.
Proof.
  induction a as [|c a IH]; simpl; [reflexivity|].
  destruct (p c); simpl; now rewrite IH.
Qed.

Lemma base64_to_base64url_padding (n : nat) :
  base64_to_base64url (repeat_string "=" n) = "".
Proof. induction n as [|n IH]; [reflexivity | exact IH]. Qed.

Lemma base64_to_base64url_append (a b : string) :
  base64_to_base64url (a ++ b) = base64_to_base64url a ++ base64_to_base64url b.
Proof.
  unfold base64_to_base64url.
  now rewrite !string_map_append, string_filter_append.
Qed.

(** Going to the standard alphabet and back is the identity on base64url
    text. *)
Lemma base64_to_base64url_standard (a : string) :
  string_forallb is_b64 a = true ->
  base64_to_base64url (base64url_to_base64 a) = a.
Proof.
  induction a as [|c a IH]; [reflexivity|].
  cbn [string_forallb]. intros H. apply andb_true_iff in H as [Hc Ha].
  change (base64url_to_base64 (String c a))
    with (String (if Ascii.eqb c "-" then "+"%char
                  else if Ascii.eqb c "_" then "/"%char else c) ""
            ++ base64url_to_base64 a).
  rewrite base64_to_base64url_append, (IH Ha).
  replace (base64_to_base64url
             (String (if Ascii.eqb c "-" then "+"%char
                      else if Ascii.eqb c "_" then "/"%char else c) ""))
    with (String c ""); [reflexivity|].
  unfold is_b64 in Hc. destruct (b64_value c) as [v|] eqn:E; [|discriminate].
  apply alphabet_index_sound in E as [Hv <-].
  pose proof (check_below 64
    (fun v => String.eqb
                (base64_to_base64url
                   (String (if Ascii.eqb (b64_char v) "-" then "+"%char
                            else if Ascii.eqb (b64_char v) "_" then "/"%char
                                 else b64_char v) ""))
                (String (b64_char v) ""))
    eq_refl v Hv) as H.
  apply String.eqb_eq in H. symmetry. exact H.
Qed.

(** X5. [base64ToBytes] reads standard base64 as well as base64url: the
    text of [b] decodes to [b] in either alphabet and with any number of
    [=] characters appended. *)
Theorem base64ToBytes_reads_both_alphabets :
  forall (b : list byte) (padding : nat),
    base64ToBytes (bytesToBase64url b ++ repeat_string "=" padding) = Ok b /\
    base64ToBytes (base64url_to_base64 (bytesToBase64url b)
                     ++ repeat_string "=" padding) = Ok b.
Proof.
  intros b padding. unfold base64ToBytes, bytesToBase64url.
  rewrite !base64_to_base64url_append, base64_to_base64url_padding.
  rewrite base64_to_base64url_standard by apply base64url_encode_alphabet.
  rewrite base64_to_base64url_id by apply base64url_encode_alphabet.
  assert (Hnil : forall a : string, a ++ "" = a)
    by (induction a as [|c a IH]; simpl; [reflexivity | now rewrite IH]).
  rewrite Hnil. split; apply base64url_decode_encode.
Qed.

(** ** Bounds and width of [toJose] *)

Lemma ta_set_fits (target source : list byte) (offset : nat) :
  (offset + List.length source <= List.length target)%nat ->
  exists result : list byte,
    ta_set target source offset = Ok result /\
    List.length result = List.length target.
Proof.
  intros Hfit. unfold ta_set.
  destruct (Nat.ltb_spec (List.length target) (offset + List.length source));
    [lia|].
  eexists. split; [reflexivity|].
  rewrite !length_app, length_firstn, length_skipn. lia.
Qed.

Lemma ta_set_overflow (target source : list byte) (offset : nat) :
  (List.length target < offset + List.length source)%nat ->
  ta_set target source offset = Err RangeError.
Proof.
  intros Hlong. unfold ta_set.
  destruct (Nat.ltb_spec (List.length target) (offset + List.length source));
    [reflexivity | lia].
Qed.

Lemma ta_store_length (target : list byte) (i : nat) (v : byte) :
  List.length (ta_store target i v) = List.length target.
Proof.
  revert i. induction target as [|x target IH]; intros [|i]; simpl;
    try reflexivity. now rewrite IH.
Qed.

(** X6. With [r] and [s] base16 text, [toJose] throws a [RangeError] exactly
    when [r] is longer than the whole array (64 bytes, 65 when recoverable)
    or [s] does not fit from offset 32 (more than 32 bytes, 33 when
    recoverable). *)
Theorem toJose_range_error :
  forall (sig : EcdsaSignature) (recoverable : bool) (rbytes sbytes : list byte),
    base16_decode (r sig) = Ok rbytes ->
    base16_decode (s sig) = Ok sbytes ->
    let size := if recoverable then 65%nat else 64%nat in
    toJose sig recoverable = Err RangeError
    <-> (size < List.length rbytes \/ size < 32 + List.length sbytes)%nat.
Proof.
  intros sig recoverable rbytes sbytes Hr Hs size.
  unfold toJose, toJose_bytes. rewrite Hr. cbn [bind]. fold size.
  destruct (Nat.le_gt_cases (List.length rbytes) size) as [Hrfit|Hrlong].
  2: { rewrite ta_set_overflow by (unfold ta_alloc; rewrite repeat_length; lia).
       cbn [bind]. split; [intros _; now left | reflexivity]. }
  destruct (ta_set_fits (ta_alloc size) rbytes 0) as (jose1 & -> & Hlen1);
    [unfold ta_alloc; rewrite repeat_length; lia|].
  unfold ta_alloc in Hlen1. rewrite repeat_length in Hlen1.
  cbn [bind]. rewrite Hs. cbn [bind].
  destruct (Nat.le_gt_cases (32 + List.length sbytes) size) as [Hsfit|Hslong].
  2: { rewrite ta_set_overflow by lia. cbn [bind].
       split; [intros _; now right | reflexivity]. }
  destruct (ta_set_fits jose1 sbytes 32) as (jose2 & -> & Hlen2); [lia|].
  cbn [bind]. split; [|lia].
  destruct recoverable; [destruct (recoveryParam sig)|]; discriminate.
Qed.

Lemma toJose_range_error_witness :
  toJose {| r := "01"; s := bytesToHex (repeat x07 33);
            recoveryParam := RPUndefined |} false
  = Err RangeError.
Proof.
  apply (proj2 (toJose_range_error
                  {| r := "01"; s := bytesToHex (repeat x07 33);
                     recoveryParam := RPUndefined |} false
                  [x01] (repeat x07 33) eq_refl eq_refl)).
  right. simpl. lia.
Defined.

Lemma base64url_encode_length (b : list byte) :
  String.length (base64url_encode b) = ((4 * List.length b + 2) / 3)%nat.
Proof.
  induction b as [|x|x y|x y z rest IH] using list_ind3; try reflexivity.
  cbn [base64url_encode String.length List.length]. rewrite IH.
  replace (4 * S (S (S (List.length rest))) + 2)%nat
    with ((4 * List.length rest + 2) + 4 * 3)%nat by lia.
  rewrite Nat.div_add by lia. lia.
Qed.

Lemma toJose_bytes_length (sig : EcdsaSignature) (recoverable : bool)
  (jose : list byte) :
  toJose_bytes sig recoverable = Ok jose ->
  List.length jose = if recoverable then 65%nat else 64%nat.
Proof.
  unfold toJose_bytes.
  destruct (base16_decode (r sig)) as [rbytes|]; cbn [bind]; [|discriminate].
  destruct (ta_set _ rbytes 0) as [jose1|] eqn:E1; cbn [bind]; [|discriminate].
  destruct (base16_decode (s sig)) as [sbytes|]; cbn [bind]; [|discriminate].
  destruct (ta_set jose1 sbytes 32) as [jose2|] eqn:E2; cbn [bind];
    [|discriminate].
  apply ta_set_length in E1, E2.
  unfold ta_alloc in E1. rewrite repeat_length in E1.
  destruct recoverable.
  - destruct (recoveryParam sig); [discriminate| |]; intros [= <-];
      rewrite ta_store_length; congruence.
  - intros [= <-]. congruence.
Qed.

(** X7. Every signature text [toJose] returns has a fixed width: 86
    characters of the base64url alphabet, 87 when recoverable, with no dot
    and no padding; it decodes to 64 bytes, 65 when recoverable. *)
Theorem toJose_fixed_width :
  forall (sig : EcdsaSignature) (recoverable : bool) (jose : string),
    toJose sig recoverable = Ok jose ->
    String.length jose = (if recoverable then 87%nat else 86%nat) /\
    string_forallb is_b64 jose = true /\
    count_char "." jose = O /\
    count_char "=" jose = O /\
    exists bytes : list byte,
      base64ToBytes jose = Ok bytes /\
      List.length bytes = if recoverable then 65%nat else 64%nat.
Proof.
  intros sig recoverable jose. unfold toJose.
  destruct (toJose_bytes sig recoverable) as [bytes|] eqn:E; cbn [bind];
    [|discriminate].
  intros [= <-]. apply toJose_bytes_length in E.
  pose proof (base64url_encode_alphabet bytes) as Halpha.
  unfold bytesToBase64url.
  split; [rewrite base64url_encode_length, E; now destruct recoverable|].
  split; [exact Halpha|]. split; [now apply base64url_no_dot|].
  split.
  - apply count_char_absent. revert Halpha. apply string_forallb_impl.
    intros c. now apply is_b64_not.
  - exists bytes. split; [apply base64ToBytes_bytesToBase64url | exact E].
Qed.

Lemma toJose_fixed_width_witness :
  String.length
    "AQAAAAAAAAAAAAAAAAAAAAAAAAAAAAAAAAAAAAAAAAD_AAAAAAAAAAAAAAAAAAAAAAAAAAAAAAAAAAAAAAAAAA"
  = 86%nat.
Proof.
  apply (toJose_fixed_width
           {| r := "01"; s := "ff"; recoveryParam := RPUndefined |} false).
  reflexivity.
Defined.

(** X8. [toJose] does not reject an [r] of more than 32 bytes: with [s] of
    32 bytes and [r] of 32 to 64 bytes, the bytes of [r] from offset 32 on
    are overwritten by [s], so the result is that of the first 32 bytes of
    [r] alone. *)
Theorem toJose_overlong_r_is_cut :
  forall (sig : EcdsaSignature) (rbytes sbytes : list byte),
    base16_decode (r sig) = Ok rbytes ->
    base16_decode (s sig) = Ok sbytes ->
    (32 <= List.length rbytes <= 64)%nat ->
    List.length sbytes = 32%nat ->
    toJose sig false = Ok (bytesToBase64url (firstn 32 rbytes ++ sbytes)).
Proof.
  intros sig rbytes sbytes Hr Hs Hrlen Hslen.
  unfold toJose, toJose_bytes. rewrite Hr. cbn [bind]. unfold ta_alloc.
  replace 64%nat
    with (List.length rbytes + (64 - List.length rbytes))%nat at 1 by lia.
  rewrite repeat_app, ta_set_start by apply repeat_length.
  cbn [bind]. rewrite Hs. cbn [bind].
  rewrite <- (firstn_skipn 32 rbytes) at 1. rewrite <- app_assoc.
  rewrite <- (app_nil_r (skipn 32 rbytes ++ repeat x00 (64 - List.length rbytes))).
  rewrite (ta_set_app (firstn 32 rbytes) _ [] sbytes 32).
  - cbn [bind]. now rewrite app_nil_r.
  - rewrite length_firstn. lia.
  - rewrite length_app, length_skipn, repeat_length. lia.
Qed.

Lemma toJose_overlong_r_is_cut_witness :
  toJose {| r := bytesToHex (repeat x07 32 ++ [xaa]);
            s := bytesToHex (repeat x09 32);
            recoveryParam := RPUndefined |} false
  = toJose {| r := bytesToHex (repeat x07 32);
              s := bytesToHex (repeat x09 32);
              recoveryParam := RPUndefined |} false.
Proof.
  rewrite (toJose_overlong_r_is_cut
             {| r := bytesToHex (repeat x07 32 ++ [xaa]);
                s := bytesToHex (repeat x09 32);
                recoveryParam := RPUndefined |}
             (repeat x07 32 ++ [xaa]) (repeat x09 32) eq_refl eq_refl)
    by (simpl; lia).
  reflexivity.
Defined.

(** ** The signing algorithm *)

(** X9. When the signer resolves to signature text, the plain algorithm
    returns that text as it is, unchecked; the recoverable algorithm returns
    it only if it decodes to 65 bytes, refuses 64 bytes as not supported and
    any other length as a wrong size. *)
Theorem ES256KSignerAlg_text_signature :
  forall (signer : Signer) (payload jose : string) (bytes : list byte),
    signer (DataString payload) = Ok (PreEncoded jose) ->
    ES256KSignerAlg false payload signer = Ok jose /\
    (base64ToBytes jose = Ok bytes ->
     (List.length bytes = 65%nat ->
      ES256KSignerAlg true payload signer = Ok jose) /\
     (List.length bytes = 64%nat ->
      ES256KSignerAlg true payload signer = Err NotSupportedRecoverable) /\
     (List.length bytes <> 64%nat -> List.length bytes <> 65%nat ->
      ES256KSignerAlg true payload signer
      = Err (InvalidSignatureLength (List.length bytes)))).
Proof.
  intros signer payload jose bytes Hsigner. unfold ES256KSignerAlg.
  rewrite Hsigner. cbn [bind]. split; [reflexivity|].
  intros Hdec. unfold fromJose. rewrite Hdec. cbn [bind].
  split; [|split].
  - intros Hlen. rewrite Hlen. cbn [Nat.ltb Nat.leb orb Nat.eqb bind recoveryParam].
    destruct (nth_error bytes 64) eqn:E; [reflexivity|].
    apply nth_error_None in E. lia.
  - intros Hlen. rewrite Hlen. reflexivity.
  - intros H64 H65.
    destruct (Nat.ltb_spec (List.length bytes) 64); [reflexivity|].
    destruct (Nat.ltb_spec 65 (List.length bytes)); [reflexivity | lia].
Qed.

Lemma ES256KSignerAlg_text_signature_witness :
  ES256KSignerAlg true "input"
    (fun _ => Ok (PreEncoded (bytesToBase64url (repeat x07 64))))
  = Err NotSupportedRecoverable.
Proof.
  apply (proj2 (ES256KSignerAlg_text_signature
                  (fun _ => Ok (PreEncoded (bytesToBase64url (repeat x07 64))))
                  "input" (bytesToBase64url (repeat x07 64)) (repeat x07 64)
                  eq_refl) eq_refl).
  reflexivity.
Defined.

(** ** [createJWS] *)

(** X10. A header whose [alg] names anything but [ES256K] makes [createJWS]
    throw the unsupported-algorithm error whatever the payload and the
    signer; the empty name counts as no [alg] and is replaced.  (Names of
    members every object inherits, such as [constructor], are left out: the
    lookup in [algorithms] finds them.) *)
Theorem createJWS_unsupported_algorithm :
  forall (payload : json) (signer : Signer) (header : object) (name : string),
    obj_get "alg" header = Some (JStr name) ->
    name <> "ES256K" -> name <> "" -> ~ In name inherited_names ->
    createJWS payload signer header = Err UnsupportedAlgorithm.
Proof.
  intros payload signer header name Halg Hname Hempty _.
  unfold createJWS. rewrite Halg. cbn [js_falsy].
  apply String.eqb_neq in Hname, Hempty. rewrite Hempty, Halg.
  cbn [SignerAlg]. now rewrite Hname.
Qed.

Lemma createJWS_unsupported_algorithm_witness :
  createJWS (JObj []) fixed_signer [("alg", JStr "ES256K-R")]
  = Err UnsupportedAlgorithm.
Proof.
  apply (createJWS_unsupported_algorithm
           (JObj []) fixed_signer [("alg", JStr "ES256K-R")] "ES256K-R" eq_refl);
    [discriminate | discriminate |].
  simpl. intros H. repeat (destruct H as [H|H]; [discriminate|]). exact H.
Defined.

(** ** [toGeneralJWS] *)

(** X11. [toGeneralJWS] undoes the joining of three dot-free parts. *)
Theorem toGeneralJWS_of_joined_parts :
  forall header payload signature : string,
    count_char "." header = O ->
    count_char "." payload = O ->
    count_char "." signature = O ->
    toGeneralJWS (header ++ "." ++ payload ++ "." ++ signature)
    = {| jws_payload := Some payload;
         jws_signatures :=
           [ {| sig_protected := Some header;
                sig_signature := Some signature |} ] |}.
Proof.
  intros header payload signature Hh Hp Hs. unfold toGeneralJWS.
  change (header ++ "." ++ payload ++ "." ++ signature)
    with (header ++ String "." (payload ++ String "." signature)).
  rewrite split_append, split_append by assumption.
  assert (Hone : split "." signature = [signature]).
  { clear Hh Hp. induction signature as [|c rest IH]; [reflexivity|].
    cbn [count_char split] in *.
    destruct (Ascii.eqb c "."); [discriminate|]. now rewrite IH. }
  now rewrite Hone.
Qed.

Lemma toGeneralJWS_of_joined_parts_witness :
  toGeneralJWS ("aGVhZA" ++ "." ++ "Ym9keQ" ++ "." ++ "c2ln")
  = {| jws_payload := Some "Ym9keQ";
       jws_signatures :=
         [ {| sig_protected := Some "aGVhZA";
              sig_signature := Some "c2ln" |} ] |}.
Proof. apply toGeneralJWS_of_joined_parts; reflexivity. Defined.

(** ** [leftpad] *)

(** X12. For data no longer than the target, [leftpad] returns text of
    exactly the target length: the data preceded by zeros only. *)
Theorem leftpad_fills_with_zeros :
  forall (data : string) (size : Z),
    Z.of_nat (String.length data) <= size ->
    exists zeros : string,
      leftpad data size = Ok (zeros ++ data) /\
      string_forallb (fun c => Ascii.eqb c "0") zeros = true /\
      Z.of_nat (String.length (zeros ++ data)) = size.
Proof.
  intros data size Hle.
  exists (repeat_string "0" (Z.to_nat size - String.length data)).
  split; [now apply leftpad_short|]. split.
  - induction (Z.to_nat size - String.length data)%nat as [|n IH];
      [reflexivity | exact IH].
  - rewrite length_append, length_repeat_char. lia.
Qed.

Lemma leftpad_fills_with_zeros_witness :
  exists zeros : string,
    leftpad "1f" 64 = Ok (zeros ++ "1f") /\
    string_forallb (fun c => Ascii.eqb c "0") zeros = true /\
    Z.of_nat (String.length (zeros ++ "1f")) = 64.
Proof. apply leftpad_fills_with_zeros. simpl; lia. Defined.

(** ** Canonical member order *)

Lemma string_leb_trans (a b c : string) :
  String.leb a b = true -> String.leb b c = true -> String.leb a c = true.
Proof.
  unfold String.leb. revert b c.
  induction a as [|x a IH]; intros [|y b] [|z c]; cbn [String.compare];
    try reflexivity; try discriminate.
  unfold Ascii.compare.
  destruct (N.compare_spec (N_of_ascii x) (N_of_ascii y)) as [Hxy|Hxy|Hxy];
    destruct (N.compare_spec (N_of_ascii y) (N_of_ascii z)) as [Hyz|Hyz|Hyz];
    destruct (N.compare_spec (N_of_ascii x) (N_of_ascii z)) as [Hxz|Hxz|Hxz];
    try discriminate; try reflexivity; try lia.
  apply IH.
Qed.

Lemma insert_member_comm (a b : string * json) (obj : object) :
  fst a <> fst b ->
  insert_member a (insert_member b obj) = insert_member b (insert_member a obj).
Proof.
  intros Hab.
  assert (Hexcl : String.leb (fst a) (fst b) = true ->
                  String.leb (fst b) (fst a) = false).
  { intros H. destruct (String.leb (fst b) (fst a)) eqn:E; [|reflexivity].
    now destruct Hab; apply String.leb_antisym. }
  assert (Htot : String.leb (fst a) (fst b) = false ->
                 String.leb (fst b) (fst a) = true).
  { intros H. destruct (String.leb_total (fst a) (fst b)); congruence. }
  induction obj as [|c rest IH]; cbn [insert_member].
  - destruct (String.leb (fst a) (fst b)) eqn:Eab.
    + now rewrite (Hexcl eq_refl).
    + now rewrite (Htot eq_refl).
  - destruct (String.leb (fst b) (fst c)) eqn:Ebc;
      destruct (String.leb (fst a) (fst c)) eqn:Eac; cbn [insert_member].
    + destruct (String.leb (fst a) (fst b)) eqn:Eab.
      * now rewrite (Hexcl eq_refl), Ebc.
      * now rewrite (Htot eq_refl), Eac.
    + destruct (String.leb (fst a) (fst b)) eqn:Eab.
      * now rewrite (string_leb_trans _ _ _ Eab Ebc) in Eac.
      * now rewrite Eac, Ebc.
    + destruct (String.leb (fst b) (fst a)) eqn:Eba.
      * now rewrite (string_leb_trans _ _ _ Eba Eac) in Ebc.
      * now rewrite Ebc, Eac.
    + now rewrite Eac, Ebc, IH.
Qed.

Lemma sort_members_permutation (obj obj' : object) :
  Permutation obj obj' -> NoDup (map fst obj) ->
  sort_members obj = sort_members obj'.
Proof.
  intros Hperm. induction Hperm as [|kv l l' Hperm IH|kv kv' l|l l' l'' H1 IH1 H2 IH2];
    intros Hnodup.
  - reflexivity.
  - cbn [sort_members fold_right]. fold (sort_members l) (sort_members l').
    rewrite IH; [reflexivity|]. now inversion Hnodup.
  - cbn [sort_members fold_right]. fold (sort_members l).
    apply insert_member_comm. cbn [map] in Hnodup.
    inversion Hnodup as [|? ? Hnotin _]. intros Heq. apply Hnotin.
    left. now symmetry.
  - rewrite IH1 by assumption. apply IH2.
    apply (Permutation_NoDup (l := map fst l));
      [now apply Permutation_map | assumption].
Qed.

(** X13. The order in which the members of an object were written does not
    reach the signed text: two objects with the same members under distinct
    names, in any order, have the same stable form and so the same encoded
    section. *)
Theorem toStableObject_ignores_member_order :
  forall obj obj' : object,
    Permutation obj obj' -> NoDup (map fst obj) ->
    toStableObject obj = toStableObject obj' /\
    encodeSection (JObj (toStableObject obj))
    = encodeSection (JObj (toStableObject obj')).
Proof.
  intros obj obj' Hperm Hnodup.
  assert (H : toStableObject obj = toStableObject obj').
  { unfold toStableObject. apply sort_members_permutation.
    - now apply Permutation_map.
    - rewrite map_map. cbn [fst]. exact Hnodup. }
  split; [exact H | now rewrite H].
Qed.

Lemma toStableObject_ignores_member_order_witness :
  toStableObject [("nonce", JStr "n"); ("aud", JStr "app")]
  = toStableObject [("aud", JStr "app"); ("nonce", JStr "n")].
Proof.
  apply toStableObject_ignores_member_order.
  - apply perm_swap.
  - repeat constructor; simpl; intuition discriminate.
Defined.

Lemma insert_member_permutation (kv : string * json) (obj : object) :
  Permutation (kv :: obj) (insert_member kv obj).
Proof.
  induction obj as [|kv' rest IH]; cbn [insert_member]; [reflexivity|].
  destruct (String.leb (fst kv) (fst kv')); [reflexivity|].
  rewrite perm_swap. now apply perm_skip.
Qed.

Lemma insert_member_sorted (kv : string * json) (obj : object) :
  Sorted key_le obj -> Sorted key_le (insert_member kv obj).
Proof.
  induction 1 as [|kv' rest Hrest IH Hhd]; cbn [insert_member].
  - now repeat constructor.
  - destruct (String.leb (fst kv) (fst kv')) eqn:E.
    + constructor; [now constructor | now constructor].
    + constructor; [exact IH|].
      assert (Hle : key_le kv' kv).
      { unfold key_le. destruct (String.leb_total (fst kv) (fst kv'));
          congruence. }
      destruct Hhd as [|kv'' rest' Hle']; cbn [insert_member].
      * now constructor.
      * destruct (String.leb (fst kv) (fst kv'')); now constructor.
Qed.

Lemma sort_members_sorted (obj : object) : Sorted key_le (sort_members obj).
Proof.
  induction obj as [|kv rest IH]; [constructor|].
  cbn [sort_members fold_right]. now apply insert_member_sorted.
Qed.

Lemma sort_members_permuted (obj : object) : Permutation obj (sort_members obj).
Proof.
  induction obj as [|kv rest IH]; [reflexivity|].
  cbn [sort_members fold_right]. fold (sort_members rest).
  rewrite <- insert_member_permutation. now apply perm_skip.
Qed.

Lemma sort_members_of_sorted (obj : object) :
  Sorted key_le obj -> sort_members obj = obj.
Proof.
  induction 1 as [|kv rest Hrest IH Hhd]; [reflexivity|].
  cbn [sort_members fold_right]. fold (sort_members rest). rewrite IH.
  destruct Hhd as [|kv' rest' Hle]; [reflexivity|].
  cbn [insert_member]. unfold key_le in Hle. now rewrite Hle.
Qed.

(** X14. The stable form of an object lists the same members, each with its
    value in stable form, in ascending order of their names; looking a name
    up gives the stable form of what the object held.  (Stated for objects
    without array-index names, which JavaScript orders numerically.) *)
Theorem toStableObject_sorts_members :
  forall obj : object,
    index_free (JObj obj) = true ->
    Sorted key_le (toStableObject obj) /\
    Permutation (map (fun kv => (fst kv, stable (snd kv))) obj)
                (toStableObject obj) /\
    forall key : string,
      obj_get key (toStableObject obj) = option_map stable (obj_get key obj).
Proof.
  intros obj _. unfold toStableObject. split; [apply sort_members_sorted|].
  split; [apply sort_members_permuted|].
  intros key. apply obj_get_toStableObject.
Qed.

Lemma toStableObject_sorts_members_witness :
  Sorted key_le
    (toStableObject [("kid", JStr "k"); ("alg", JStr "ES256K");
                     ("b64", JBool false)]).
Proof.
  apply (toStableObject_sorts_members
           [("kid", JStr "k"); ("alg", JStr "ES256K"); ("b64", JBool false)]).
  reflexivity.
Defined.

Lemma json_ind_nested (P : json -> Prop) :
  P JNull ->
  (forall b, P (JBool b)) ->
  (forall n, P (JNum n)) ->
  (forall s, P (JStr s)) ->
  (forall items, Forall P items -> P (JArr items)) ->
  (forall members, Forall (fun kv => P (snd kv)) members -> P (JObj members)) ->
  forall j, P j.
Proof.
  intros Hnull Hbool Hnum Hstr Harr Hobj.
  fix IH 1. intros [|b|n|s|items|members].
  - exact Hnull.
  - apply Hbool.
  - apply Hnum.
  - apply Hstr.
  - apply Harr.
    exact ((fix all (l : list json) : Forall P l :=
              match l with
              | [] => Forall_nil P
              | x :: rest => Forall_cons x (IH x) (all rest)
              end) items).
  - apply Hobj.
    exact ((fix all (l : list (string * json))
              : Forall (fun kv => P (snd kv)) l :=
              match l with
              | [] => Forall_nil _
              | kv :: rest =>
                  Forall_cons (P := fun kv => P (snd kv)) kv
                    (IH (snd kv)) (all rest)
              end) members).
Qed.

Lemma map_insert_member (g : json -> json) (kv : string * json) (obj : object) :
  map (fun kv => (fst kv, g (snd kv))) (insert_member kv obj)
  = insert_member (fst kv, g (snd kv)) (map (fun kv => (fst kv, g (snd kv))) obj).
Proof.
  induction obj as [|kv' rest IH]; [reflexivity|].
  cbn [insert_member map fst].
  destruct (String.leb (fst kv) (fst kv')); cbn [map]; [reflexivity|].
  now rewrite IH.
Qed.

Lemma map_sort_members (g : json -> json) (obj : object) :
  map (fun kv => (fst kv, g (snd kv))) (sort_members obj)
  = sort_members (map (fun kv => (fst kv, g (snd kv))) obj).
Proof.
  induction obj as [|kv rest IH]; [reflexivity|].
  cbn [sort_members fold_right map]. fold (sort_members rest).
  rewrite map_insert_member, IH. reflexivity.
Qed.

(** X15. The stable form is a fixed point: making a value stable twice is
    making it stable once, at every depth. *)
Theorem stable_idempotent :
  forall j : json, stable (stable j) = stable j.
Proof.
  induction j as [|b|n|s|items IH|members IH] using json_ind_nested;
    try reflexivity.
  - cbn [stable]. f_equal. rewrite map_map.
    induction IH as [|x rest Hx _ IHrest]; [reflexivity|].
    cbn [map]. now rewrite Hx, IHrest.
  - cbn [stable]. f_equal.
    rewrite map_sort_members, map_map. cbn [fst snd].
    replace (map (fun kv => (fst kv, stable (stable (snd kv)))) members)
      with (map (fun kv => (fst kv, stable (snd kv))) members).
    + apply sort_members_of_sorted, sort_members_sorted.
    + induction IH as [|kv rest Hkv _ IHrest]; [reflexivity|].
      cbn [map]. now rewrite Hkv, IHrest.
Qed.

(** ** [sign] and [did_authenticate] *)

(** The encoded payload of [sign]. *)
Lemma sign_run (collaborators : Collaborators) (payload : json) (did : string)
  (secretKey : list byte) (protectedHeader : option object) :
  let kid := did ++ "#" ++ template_text (nth_error (split ":" did) 2) in
  let header :=
    toStableObject
      (Object_assign
         match protectedHeader with
         | Some overrides => overrides
         | None => []
         end
         [("kid", JStr kid); ("alg", JStr "ES256K")]) in
  let encodedPayload :=
    match payload with
    | JStr text => text
    | other => encodeSection (stable other)
    end in
  let signingInput := encodeSection (JObj header) ++ "." ++ encodedPayload in
  sign payload did secretKey protectedHeader
  = (signer <- ES256KSigner secretKey false ;;
     signature <- ES256KSignerAlg false signingInput signer ;;
     Ok (signingInput ++ "." ++ signature)).
Proof.
  intros kid header encodedPayload signingInput.
  destruct (forced_header_members
              match protectedHeader with
              | Some overrides => overrides
              | None => []
              end kid) as [_ Halg].
  fold header in Halg.
  unfold sign. fold kid. fold header.
  destruct (ES256KSigner secretKey false) as [signer|]; cbn [bind];
    [|reflexivity].
  rewrite createJWS_ES256K by exact Halg.
  unfold signingInput, encodedPayload.
  destruct payload; cbn [stable]; reflexivity.
Qed.

Lemma signWithLit_run (collaborators : Collaborators) (payload : json)
  (did : string) (protectedHeader : option object) :
  let kid := did ++ "#" ++ template_text (nth_error (split ":" did) 2) in
  let header :=
    toStableObject
      (Object_assign
         match protectedHeader with
         | Some overrides => overrides
         | None => []
         end
         [("kid", JStr kid); ("alg", JStr "ES256K")]) in
  let encodedPayload :=
    match payload with
    | JStr text => text
    | other => encodeSection (stable other)
    end in
  let signingInput := encodeSection (JObj header) ++ "." ++ encodedPayload in
  signWithLit payload did protectedHeader
  = (signature <- ES256KSignerAlg false signingInput ES256KSignerWithLit ;;
     Ok (signingInput ++ "." ++ signature)).
Proof.
  intros kid header encodedPayload signingInput.
  destruct (forced_header_members
              match protectedHeader with
              | Some overrides => overrides
              | None => []
              end kid) as [_ Halg].
  fold header in Halg.
  unfold signWithLit. fold kid. fold header.
  change createJWS2 with createJWS.
  rewrite createJWS_ES256K by exact Halg.
  unfold signingInput, encodedPayload.
  destruct payload; cbn [stable]; reflexivity.
Qed.

(** What the signers of this file hand to the plain algorithm is always a
    [toJose] text. *)
Lemma local_signature_text (collaborators : Collaborators)
  (secretKey : list byte) (input signature : string) :
  ES256KSignerAlg false input (ES256KSigner_sign secretKey false) = Ok signature ->
  exists sig : EcdsaSignature, toJose sig false = Ok signature.
Proof.
  unfold ES256KSignerAlg, ES256KSigner_sign.
  destruct (keyPair_sign secretKey (sha256 (DataString input))) as [[rn sn] rp].
  destruct (leftpad (BN_toString_hex rn) leftpad_default_size) as [rpad|];
    cbn [bind]; [|discriminate].
  destruct (leftpad (BN_toString_hex sn) leftpad_default_size) as [spad|];
    cbn [bind]; [|discriminate].
  destruct (toJose {| r := rpad; s := spad; recoveryParam := rp |} false)
    as [jose|] eqn:E; cbn [bind]; [|discriminate].
  intros [= <-]. eauto.
Qed.

Lemma lit_signature_text (collaborators : Collaborators)
  (input signature : string) :
  ES256KSignerAlg false input ES256KSignerWithLit = Ok signature ->
  exists sig : EcdsaSignature, toJose sig false = Ok signature.
Proof.
  unfold ES256KSignerAlg, ES256KSignerWithLit.
  destruct (litActionSignAndGetSignature (sha256 (DataString input)))
    as [sig1|]; cbn [bind]; [|discriminate].
  destruct (toJose _ false) as [jose|] eqn:E; cbn [bind]; [|discriminate].
  intros [= <-]. eauto.
Qed.

(** The general form of a compact text whose three parts are an encoded
    header, an encoded payload and a [toJose] text. *)
Lemma toGeneralJWS_of_sections (header payload : json) (sig : EcdsaSignature)
  (signature : string) :
  toJose sig false = Ok signature ->
  let compact :=
    (encodeSection header ++ "." ++ encodeSection payload) ++ "." ++ signature in
  count_char "." compact = 2%nat /\
  toGeneralJWS compact
  = {| jws_payload := Some (encodeSection payload);
       jws_signatures :=
         [ {| sig_protected := Some (encodeSection header);
              sig_signature := Some signature |} ] |} /\
  exists bytes : list byte,
    base64ToBytes signature = Ok bytes /\ List.length bytes = 64%nat.
Proof.
  intros Hsig compact.
  pose proof (toJose_no_dot sig false signature Hsig) as Hdot.
  unfold compact. rewrite append_assoc. split; [|split].
  - rewrite !count_char_append, !encodeSection_no_dot, Hdot. reflexivity.
  - unfold toGeneralJWS.
    change (encodeSection header
              ++ ("." ++ encodeSection payload) ++ "." ++ signature)
      with (encodeSection header
              ++ String "." (encodeSection payload ++ String "." signature)).
    rewrite !split_append by apply encodeSection_no_dot.
    assert (Hone : split "." signature = [signature]).
    { clear Hsig. induction signature as [|c rest IH]; [reflexivity|].
      cbn [count_char split] in *.
      destruct (Ascii.eqb c "."); [discriminate|]. now rewrite IH. }
    now rewrite Hone.
  - unfold toJose in Hsig.
    destruct (toJose_bytes sig false) as [bytes|] eqn:E; cbn [bind] in Hsig;
      [|discriminate].
    injection Hsig as <-. exists bytes.
    split; [apply base64ToBytes_bytesToBase64url|].
    exact (toJose_bytes_plain_length sig bytes E).
Qed.

Lemma encodeSection_decodes (data : json) :
  base64ToBytes (encodeSection data)
  = Ok (list_byte_of_string (JSON_stringify data)).
Proof. apply base64ToBytes_bytesToBase64url. Qed.

Lemma sign_general_form (collaborators : Collaborators) (payload : json)
  (did : string) (secretKey : list byte) (protectedHeader : option object)
  (compact : string) :
  (forall text : string, payload <> JStr text) ->
  sign payload did secretKey protectedHeader = Ok compact ->
  exists (signature : string) (bytes : list byte),
    count_char "." compact = 2%nat /\
    toGeneralJWS compact
    = {| jws_payload := Some (encodeSection (stable payload));
         jws_signatures :=
           [ {| sig_protected :=
                  Some (encodeSection (JObj (sign_header did protectedHeader)));
                sig_signature := Some signature |} ] |} /\
    base64ToBytes signature = Ok bytes /\ List.length bytes = 64%nat.
Proof.
  intros Hobj. rewrite sign_run. cbv zeta. fold (sign_header did protectedHeader).
  replace (match payload with
           | JStr text => text
           | _ => encodeSection (stable payload)
           end) with (encodeSection (stable payload))
    by (destruct payload; try reflexivity; now destruct (Hobj s0)).
  unfold ES256KSigner.
  destruct (negb (List.length secretKey =? 32)%nat); cbn [bind]; [discriminate|].
  destruct (ES256KSignerAlg false _ (ES256KSigner_sign secretKey false))
    as [signature|] eqn:Hsig; cbn [bind]; [|discriminate].
  intros [= <-].
  destruct (local_signature_text _ _ _ _ Hsig) as [sig Hjose].
  destruct (toGeneralJWS_of_sections (JObj (sign_header did protectedHeader))
              (stable payload) sig signature Hjose)
    as (Hdots & Hgeneral & bytes & Hbytes & Hlen).
  now exists signature, bytes.
Qed.

(** X16. For a payload that is not a string, every compact text [sign]
    returns has exactly two dots, and its general form keeps all three
    parts: the header section, which decodes to the JSON text of the stable
    header with [kid] and [alg], the payload section, which decodes to the
    JSON text of the stable payload, and a signature that decodes to 64
    bytes. *)
Theorem sign_returns_three_sections :
  forall (collaborators : Collaborators) (payload : json) (did : string)
         (secretKey : list byte) (protectedHeader : option object)
         (compact : string),
    (forall text : string, payload <> JStr text) ->
    sign payload did secretKey protectedHeader = Ok compact ->
    exists (header : object) (signature : string) (bytes : list byte),
      obj_get "alg" header = Some (JStr "ES256K") /\
      obj_get "kid" header
      = Some (JStr (did ++ "#"
                      ++ template_text (nth_error (split ":" did) 2))) /\
      count_char "." compact = 2%nat /\
      toGeneralJWS compact
      = {| jws_payload := Some (encodeSection (stable payload));
           jws_signatures :=
             [ {| sig_protected := Some (encodeSection (JObj header));
                  sig_signature := Some signature |} ] |} /\
      base64ToBytes (encodeSection (JObj header))
      = Ok (list_byte_of_string (JSON_stringify (JObj header))) /\
      base64ToBytes (encodeSection (stable payload))
      = Ok (list_byte_of_string (JSON_stringify (stable payload))) /\
      base64ToBytes signature = Ok bytes /\ List.length bytes = 64%nat.
Proof.
  intros collaborators payload did secretKey protectedHeader compact Hobj Hsign.
  destruct (sign_general_form collaborators payload did secretKey
              protectedHeader compact Hobj Hsign)
    as (signature & bytes & Hdots & Hgeneral & Hbytes & Hlen).
  destruct (forced_header_members
              match protectedHeader with
              | Some overrides => overrides
              | None => []
              end
              (did ++ "#" ++ template_text (nth_error (split ":" did) 2)))
    as [Hkid Halg].
  exists (sign_header did protectedHeader), signature, bytes.
  repeat (split; [first [assumption | apply encodeSection_decodes]|]).
  assumption.
Qed.

Lemma sign_returns_three_sections_witness :
  exists compact : string,
    @sign fixed_collaborators (JObj [("hello", JStr "world")]) "did:key:zABC"
          (repeat x01 32) None = Ok compact /\
    count_char "." compact = 2%nat.
Proof.
  eexists. split; [reflexivity|].
  destruct (sign_returns_three_sections fixed_collaborators
              (JObj [("hello", JStr "world")]) "did:key:zABC"
              (repeat x01 32) None _ ltac:(discriminate) eq_refl)
    as (header & signature & bytes & _ & _ & Hdots & _).
  exact Hdots.
Defined.

Lemma stable_auth_payload (now : Z) (did : string) (aud nonce paths : json) :
  stable (auth_payload now did
            {| auth_aud := Some aud; auth_nonce := Some nonce;
               auth_paths := Some paths |})
  = JObj [("aud", stable aud); ("did", JStr did);
          ("exp", JNum (now / 1000 + 600));
          ("nonce", stable nonce); ("paths", stable paths)].
Proof. reflexivity. Qed.

(** X17. Every answer of the local [did_authenticate] is a general JWS with
    all its parts: the payload decodes to the JSON text of the stable
    request payload, whose [exp] is the second of the request plus 600 and
    whose members, when [aud], [nonce] and [paths] are all given, are [aud],
    [did], [exp], [nonce], [paths] in this order; the protected header
    decodes to the JSON text of [alg] and [kid]; the signature decodes to 64
    bytes. *)
Theorem did_authenticate_answer :
  forall (collaborators : Collaborators) (now : Z) (context : Context)
         (params : AuthParams) (answer : GeneralJWS),
    did_authenticate now context params = Ok answer ->
    let payload := stable (auth_payload now (did context) params) in
    let header :=
      JObj [("alg", JStr "ES256K");
            ("kid", JStr (did context ++ "#"
                            ++ template_text
                                 (nth_error (split ":" (did context)) 2)))] in
    (exists (signature : string) (bytes : list byte),
        answer
        = {| jws_payload := Some (encodeSection payload);
             jws_signatures :=
               [ {| sig_protected := Some (encodeSection header);
                    sig_signature := Some signature |} ] |} /\
        base64ToBytes signature = Ok bytes /\ List.length bytes = 64%nat) /\
    base64ToBytes (encodeSection payload)
    = Ok (list_byte_of_string (JSON_stringify payload)) /\
    base64ToBytes (encodeSection header)
    = Ok (list_byte_of_string (JSON_stringify header)) /\
    (exists members : object,
        payload = JObj members /\
        obj_get "exp" members = Some (JNum (now / 1000 + 600)) /\
        obj_get "did" members = Some (JStr (did context))) /\
    (forall aud nonce paths : json,
        params = {| auth_aud := Some aud; auth_nonce := Some nonce;
                    auth_paths := Some paths |} ->
        payload
        = JObj [("aud", stable aud); ("did", JStr (did context));
                ("exp", JNum (now / 1000 + 600));
                ("nonce", stable nonce); ("paths", stable paths)]).
Proof.
  intros collaborators now context params answer Hrun payload header.
  unfold did_authenticate in Hrun.
  destruct (sign _ (did context) (secretKey context) None) as [compact|] eqn:Hsign;
    cbn [bind] in Hrun; [|discriminate].
  assert (Hanswer : answer = toGeneralJWS compact) by congruence.
  clear Hrun. subst answer.
  destruct (sign_general_form collaborators
              (auth_payload now (did context) params) (did context)
              (secretKey context) None compact ltac:(discriminate) Hsign)
    as (signature & bytes & _ & Hgeneral & Hbytes & Hlen).
  change (JObj (sign_header (did context) None)) with header in Hgeneral.
  split; [|split; [|split; [|split]]].
  - exists signature, bytes. split; [exact Hgeneral | now split].
  - apply encodeSection_decodes.
  - apply encodeSection_decodes.
  - unfold payload, auth_payload. cbn [stable]. eexists. split; [reflexivity|].
    rewrite !obj_get_sort_members.
    destruct (auth_aud params), (auth_nonce params), (auth_paths params);
      split; reflexivity.
  - intros aud nonce paths ->. apply stable_auth_payload.
Qed.

Lemma did_authenticate_answer_witness :
  exists answer : GeneralJWS,
    @did_authenticate fixed_collaborators 1700000000999
       {| did := "did:key:zABC"; secretKey := repeat x01 32 |}
       {| auth_aud := Some (JStr "app"); auth_nonce := Some (JStr "n1");
          auth_paths := Some (JArr [JStr "/a"]) |}
    = Ok answer /\
    option_map base64ToBytes (jws_payload answer)
    = Some (Ok (list_byte_of_string
                  (JSON_stringify
                     (JObj [("aud", JStr "app"); ("did", JStr "did:key:zABC");
                            ("exp", JNum 1700000600);
                            ("nonce", JStr "n1");
                            ("paths", JArr [JStr "/a"])])))).
Proof.
  eexists. split; [reflexivity|].
  destruct (did_authenticate_answer fixed_collaborators 1700000000999
              {| did := "did:key:zABC"; secretKey := repeat x01 32 |}
              {| auth_aud := Some (JStr "app"); auth_nonce := Some (JStr "n1");
                 auth_paths := Some (JArr [JStr "/a"]) |} _ eq_refl)
    as (_ & Hpayload & _).
  exact (f_equal Some Hpayload).
Defined.

(** ** The remote provider *)

Lemma signWithLit_general_form (collaborators : Collaborators) (payload : json)
  (did : string) (protectedHeader : option object) (compact : string) :
  (forall text : string, payload <> JStr text) ->
  signWithLit payload did protectedHeader = Ok compact ->
  exists (signature : string) (bytes : list byte),
    count_char "." compact = 2%nat /\
    toGeneralJWS compact
    = {| jws_payload := Some (encodeSection (stable payload));
         jws_signatures :=
           [ {| sig_protected :=
                  Some (encodeSection (JObj (sign_header did protectedHeader)));
                sig_signature := Some signature |} ] |} /\
    base64ToBytes signature = Ok bytes /\ List.length bytes = 64%nat.
Proof.
  intros Hobj. rewrite signWithLit_run. cbv zeta.
  fold (sign_header did protectedHeader).
  replace (match payload with
           | JStr text => text
           | _ => encodeSection (stable payload)
           end) with (encodeSection (stable payload))
    by (destruct payload; try reflexivity; now destruct (Hobj s0)).
  destruct (ES256KSignerAlg false _ ES256KSignerWithLit)
    as [signature|] eqn:Hsig; cbn [bind]; [|discriminate].
  intros [= <-].
  destruct (lit_signature_text _ _ _ Hsig) as [sig Hjose].
  destruct (toGeneralJWS_of_sections (JObj (sign_header did protectedHeader))
              (stable payload) sig signature Hjose)
    as (Hdots & Hgeneral & bytes & Hbytes & Hlen).
  now exists signature, bytes.
Qed.

(** X18. For the same DID, request and time, the remote provider's
    [did_authenticate] answers with the same payload and the same protected
    header as the local provider's; the two answers can differ in the
    signature only, which in both decodes to 64 bytes. *)
Theorem did_authenticate_WithLit_same_sections :
  forall (collaborators : Collaborators) (now : Z) (context : Context)
         (params : AuthParams) (local remote : GeneralJWS),
    did_authenticate now context params = Ok local ->
    did_authenticate_WithLit now (did context) params = Ok remote ->
    jws_payload remote = jws_payload local /\
    map sig_protected (jws_signatures remote)
    = map sig_protected (jws_signatures local) /\
    exists (signature : string) (bytes : list byte),
      map sig_signature (jws_signatures remote) = [Some signature] /\
      base64ToBytes signature = Ok bytes /\ List.length bytes = 64%nat.
Proof.
  intros collaborators now context params local remote Hlocal Hremote.
  unfold did_authenticate in Hlocal. unfold did_authenticate_WithLit in Hremote.
  destruct (sign _ (did context) (secretKey context) None) as [compact|] eqn:Hsign;
    cbn [bind] in Hlocal; [|discriminate].
  destruct (signWithLit _ (did context) None) as [compact'|] eqn:Hsign';
    cbn [bind] in Hremote; [|discriminate].
  assert (Hl : local = toGeneralJWS compact) by congruence.
  assert (Hr : remote = toGeneralJWS compact') by congruence.
  subst local remote. clear Hlocal Hremote.
  destruct (sign_general_form collaborators
              (auth_payload now (did context) params) (did context)
              (secretKey context) None compact ltac:(discriminate) Hsign)
    as (signature & bytes & _ & -> & _).
  destruct (signWithLit_general_form collaborators
              (auth_payload now (did context) params) (did context)
              None compact' ltac:(discriminate) Hsign')
    as (signature' & bytes' & _ & -> & Hbytes & Hlen).
  cbn [jws_payload jws_signatures map sig_protected sig_signature].
  split; [reflexivity|]. split; [reflexivity|].
  now exists signature', bytes'.
Qed.

Lemma did_authenticate_WithLit_same_sections_witness :
  exists local remote : GeneralJWS,
    @did_authenticate fixed_collaborators 0
       {| did := "did:key:zABC"; secretKey := repeat x01 32 |}
       {| auth_aud := None; auth_nonce := Some (JStr "n1");
          auth_paths := Some (JArr []) |} = Ok local /\
    @did_authenticate_WithLit fixed_collaborators 0 "did:key:zABC"
       {| auth_aud := None; auth_nonce := Some (JStr "n1");
          auth_paths := Some (JArr []) |} = Ok remote /\
    jws_payload remote = jws_payload local.
Proof.
  eexists. eexists. split; [reflexivity|]. split; [reflexivity|].
  apply (did_authenticate_WithLit_same_sections fixed_collaborators 0
           {| did := "did:key:zABC"; secretKey := repeat x01 32 |}
           {| auth_aud := None; auth_nonce := Some (JStr "n1");
              auth_paths := Some (JArr []) |} _ _ eq_refl eq_refl).
Defined.

(** ** Keys of the wrong length *)

(** X19. The provider's constructor does not look at the length of the
    seed: it keeps the seed as the secret key whatever its length.  With a
    secret key that is not 32 bytes long, [did_authenticate] and every
    [did_createJWS] addressed to the provider's DID fail with the bad-key
    error of the signer. *)
Theorem provider_with_bad_seed_fails_on_request :
  forall (collaborators : Collaborators) (keys : KeyCollaborators)
         (seed : list byte) (context : Context),
    Secp256k1Provider seed = Ok context ->
    secretKey context = seed /\
    (List.length seed <> 32%nat ->
     (forall (now : Z) (params : AuthParams),
         did_authenticate now context params
         = Err (BadKeyFormat (List.length seed))) /\
     (forall params : CreateJWSParams,
         hd "" (split "#" (params_did params)) = did context ->
         did_createJWS context params
         = Err (BadKeyFormat (List.length seed)))).
Proof.
  intros collaborators keys seed context. unfold Secp256k1Provider.
  destruct (keyFromPrivate_getPublic seed) as [publicKey|]; cbn [bind];
    [|discriminate].
  destruct (encodeDID publicKey) as [d|]; cbn [bind]; [|discriminate].
  intros [= <-]. cbn [secretKey did]. split; [reflexivity|].
  intros Hlen. apply Nat.eqb_neq in Hlen.
  assert (Hsign : forall payload protectedHeader,
             sign payload d seed protectedHeader
             = Err (BadKeyFormat (List.length seed))).
  { intros payload protectedHeader. unfold sign, ES256KSigner.
    now rewrite Hlen. }
  split.
  - intros now params. unfold did_authenticate. cbn [did secretKey].
    now rewrite Hsign.
  - intros params Hdid. unfold did_createJWS. cbn [did secretKey].
    rewrite Hdid, String.eqb_refl. cbn [negb]. now rewrite Hsign.
Qed.

Lemma provider_with_bad_seed_fails_on_request_witness :
  exists context : Context,
    @Secp256k1Provider fixed_keys (repeat x01 31) = Ok context /\
    @did_authenticate fixed_collaborators 0 context
       {| auth_aud := None; auth_nonce := None; auth_paths := None |}
    = Err (BadKeyFormat 31).
Proof.
  eexists. split; [reflexivity|].
  apply (proj2 (provider_with_bad_seed_fails_on_request fixed_collaborators
                  fixed_keys (repeat x01 31) _ eq_refl)).
  simpl. lia.
Defined.

(** ** The provider and its own DID *)

Lemma base58btc_text_without (c : ascii) (id : string) :
  is_base58btc_char c = false ->
  string_forallb is_base58btc_char id = true -> count_char c id = O.
Proof.
  intros Hc Hid. apply count_char_absent. revert Hid.
  apply string_forallb_impl. intros x Hx.
  destruct (Ascii.eqb_spec x c) as [->|]; [congruence | reflexivity].
Qed.

Lemma encodeDID_shape (publicKey : list byte) (did : string) :
  encodeDID publicKey = Ok did ->
  exists id : string,
    did = "did:key:z" ++ id /\ id <> "" /\
    string_forallb is_base58btc_char id = true.
Proof.
  rewrite encodeDID_buffer. intros [= <-].
  destruct (base58btc_encode_class xe7 (x01 :: publicKey)) as [Hne Hclass];
    [discriminate|].
  exists (base58btc_encode (xe7 :: x01 :: publicKey)).
  split; [reflexivity | now split].
Qed.

(** X20. The DID of a provider is [did:key:z] and a base58btc identifier, so
    it has no [#] and exactly two colons: the key id [sign] puts in the
    header is the DID, [#], and the identifier with its [z]; and a
    [did_createJWS] whose [params.did] is the provider's DID, alone or
    followed by [#] and any fragment, is never refused as an unknown DID
    but goes on to [sign]. *)
Theorem provider_accepts_its_own_did :
  forall (collaborators : Collaborators) (keys : KeyCollaborators)
         (seed : list byte) (context : Context),
    Secp256k1Provider seed = Ok context ->
    matches_did_key (did context) = true /\
    (exists id : string,
        did context = "did:key:z" ++ id /\
        did context ++ "#"
          ++ template_text (nth_error (split ":" (did context)) 2)
        = did context ++ "#" ++ "z" ++ id) /\
    (forall params : CreateJWSParams,
        (params_did params = did context \/
         exists fragment : string,
           params_did params = did context ++ "#" ++ fragment) ->
        did_createJWS context params
        = (text <- sign (params_payload params) (did context)
                        (secretKey context) (params_protected params) ;;
           Ok {| jws := toGeneralJWS text |})).
Proof.
  intros collaborators keys seed context. unfold Secp256k1Provider.
  destruct (keyFromPrivate_getPublic seed) as [publicKey|]; cbn [bind];
    [|discriminate].
  destruct (encodeDID publicKey) as [d|] eqn:Hdid; cbn [bind]; [|discriminate].
  intros [= <-]. cbn [did secretKey].
  destruct (encodeDID_shape publicKey d Hdid) as (id & -> & Hne & Hclass).
  pose proof (base58btc_text_without "#" id eq_refl Hclass) as Hhash.
  pose proof (base58btc_text_without ":" id eq_refl Hclass) as Hcolon.
  split; [|split].
  - unfold matches_did_key. rewrite strip_prefix_append, Hclass, andb_true_r.
    apply negb_true_iff, String.eqb_neq, Hne.
  - exists id. split; [reflexivity|].
    change ("did:key:z" ++ id)
      with ("did" ++ String ":" ("key" ++ String ":" (String "z" id))) at 2.
    rewrite !split_append by reflexivity.
    rewrite split_single by exact Hcolon. reflexivity.
  - intros params Hparams. unfold did_createJWS. cbn [did secretKey].
    assert (Hnone : count_char "#" ("did:key:z" ++ id) = O)
      by (rewrite count_char_append; now rewrite Hhash).
    assert (Hhd : hd "" (split "#" (params_did params)) = "did:key:z" ++ id).
    { destruct Hparams as [-> | [fragment ->]].
      - now rewrite split_single.
      - change (("did:key:z" ++ id) ++ "#" ++ fragment)
          with (("did:key:z" ++ id) ++ String "#" fragment).
        now rewrite split_append. }
    now rewrite Hhd, String.eqb_refl.
Qed.

Lemma provider_accepts_its_own_did_witness :
  exists context : Context,
    @Secp256k1Provider fixed_keys (repeat x01 32) = Ok context /\
    matches_did_key (did context) = true.
Proof.
  eexists. split; [reflexivity|].
  apply (provider_accepts_its_own_did fixed_collaborators fixed_keys
           (repeat x01 32) _ eq_refl).
Defined.

(** X21. A DID with fewer than two colons has no third part to name the
    key: the header [sign] builds then carries the key id [<did>#undefined],
    and that is what the protected header of every result decodes to. *)
Theorem sign_kid_without_identifier :
  forall (did : string) (protectedHeader : option object),
    (count_char ":" did < 2)%nat ->
    obj_get "kid" (sign_header did protectedHeader)
    = Some (JStr (did ++ "#undefined")) /\
    forall (collaborators : Collaborators) (payload : json)
           (secretKey : list byte) (compact : string),
      sign payload did secretKey protectedHeader = Ok compact ->
      exists entry : JWSSignature,
        jws_signatures (toGeneralJWS compact) = [entry] /\
        sig_protected entry
        = Some (encodeSection (JObj (sign_header did protectedHeader))).
Proof.
  intros did protectedHeader Hcolons.
  assert (Hnth : nth_error (split ":" did) 2 = None).
  { apply nth_error_None. rewrite split_length. lia. }
  split.
  - pose proof (forced_header_members
                  match protectedHeader with
                  | Some overrides => overrides
                  | None => []
                  end
                  (did ++ "#" ++ template_text (nth_error (split ":" did) 2)))
      as [Hkid _].
    unfold sign_header. rewrite Hkid, Hnth. reflexivity.
  - intros collaborators payload secretKey compact.
    rewrite sign_run. cbv zeta. fold (sign_header did protectedHeader).
    destruct (ES256KSigner secretKey false) as [signer|]; cbn [bind];
      [|discriminate].
    destruct (ES256KSignerAlg false _ signer) as [signature|]; cbn [bind];
      [|discriminate].
    intros [= <-]. rewrite append_assoc.
    apply toGeneralJWS_protected, encodeSection_no_dot.
Qed.

Lemma sign_kid_without_identifier_witness :
  obj_get "kid" (sign_header "did:web" None) = Some (JStr "did:web#undefined").
Proof.
  apply (sign_kid_without_identifier "did:web" None). simpl. lia.
Defined.

(** ** [encodeDIDWithLit] *)

(** X22. [encodeDIDWithLit] derives the DID from the compressed form of the
    key the signing service reports exactly as [encodeDID] does, failing
    only when the service or the curve library fails; its result matches
    [^did:key:z[1-9A-HJ-NP-Za-km-z]+$]. *)
Theorem encodeDIDWithLit_agrees_with_encodeDID :
  forall keys : KeyCollaborators,
    encodeDIDWithLit
    = (PKP_PUBLIC_KEY <- lit_publicKey [] ;;
       pubBytes <- keyFromPublic_getPublic PKP_PUBLIC_KEY ;;
       encodeDID pubBytes) /\
    (forall (hex : string) (pubBytes : list byte),
        lit_publicKey [] = Ok hex ->
        keyFromPublic_getPublic hex = Ok pubBytes ->
        exists did : string,
          encodeDIDWithLit = Ok did /\ encodeDID pubBytes = Ok did /\
          matches_did_key did = true).
Proof.
  intros keys. split; [reflexivity|].
  intros hex pubBytes Hhex Hpub. unfold encodeDIDWithLit.
  rewrite Hhex. cbn [bind]. rewrite Hpub. cbn [bind].
  fold (encodeDID pubBytes). rewrite encodeDID_buffer.
  eexists. split; [reflexivity|]. split; [reflexivity|].
  unfold matches_did_key. rewrite strip_prefix_append.
  destruct (base58btc_encode_class xe7 (x01 :: pubBytes)) as [Hne Hclass];
    [discriminate|].
  rewrite Hclass, andb_true_r. apply negb_true_iff, String.eqb_neq, Hne.
Qed.

Lemma encodeDIDWithLit_agrees_with_encodeDID_witness :
  @encodeDIDWithLit fixed_keys
  = Ok "did:key:zQ3shNZQnGqtqxokGkoVtFWnG9v6TJT43E3rfPxzc1eHqx3qJ".
Proof.
  destruct (proj2 (encodeDIDWithLit_agrees_with_encodeDID fixed_keys)
              "04" (x02 :: repeat x11 32) eq_refl eq_refl)
    as (did & Hlit & Hlocal & _).
  rewrite Hlit, <- Hlocal. reflexivity.
Defined.

(** ** [encodeDID] is injective *)

Lemma b58_fold_number (bytes : list byte) (digits : list Z) :
  b58_digits digits ->
  b58_value (fold_left (fun ds x => b58_muladd ds (u8 x)) bytes digits)
  = fold_left (fun v x => 256 * v + u8 x) bytes (b58_value digits).
Proof.
  revert digits. induction bytes as [|x bytes IH]; intros digits Hd;
    cbn [fold_left]; [reflexivity|].
  rewrite IH by apply b58_muladd_digits.
  rewrite b58_muladd_value by (assumption || apply u8_range). reflexivity.
Qed.

Lemma be_value_fold (bytes : list byte) (acc : Z) :
  fold_left (fun v x => 256 * v + u8 x) bytes acc
  = acc * 256 ^ Z.of_nat (List.length bytes) + be_value bytes.
Proof.
  revert acc. induction bytes as [|x bytes IH]; intros acc;
    cbn [fold_left be_value List.length].
  - rewrite Z.pow_0_r. lia.
  - rewrite IH, Nat2Z.inj_succ, Z.pow_succ_r by lia. ring.
Qed.

Lemma be_value_range (bytes : list byte) :
  0 <= be_value bytes < 256 ^ Z.of_nat (List.length bytes).
Proof.
  induction bytes as [|x bytes IH]; cbn [be_value List.length].
  - rewrite Z.pow_0_r. lia.
  - rewrite Nat2Z.inj_succ, Z.pow_succ_r by lia.
    pose proof (u8_range x). nia.
Qed.

Lemma u8_injective (x y : byte) : u8 x = u8 y -> x = y.
Proof. intros H. rewrite <- (to_u8_u8 x), <- (to_u8_u8 y). now rewrite H. Qed.

Lemma be_value_injective (a b : list byte) :
  List.length a = List.length b -> be_value a = be_value b -> a = b.
Proof.
  revert b. induction a as [|x a IH]; intros [|y b]; try discriminate;
    [reflexivity|].
  cbn [List.length be_value]. intros Hlen Hval.
  injection Hlen as Hlen. rewrite <- Hlen in Hval.
  pose proof (be_value_range a) as Ha. pose proof (be_value_range b) as Hb.
  rewrite <- Hlen in Hb.
  pose proof (u8_range x). pose proof (u8_range y).
  assert (Hxy : u8 x = u8 y) by nia.
  rewrite Hxy in Hval.
  rewrite (u8_injective _ _ Hxy), (IH b Hlen) by lia. reflexivity.
Qed.

(** The number of a buffer that starts with [0xe7] tells its length. *)
Lemma be_value_tagged_length (a b : list byte) :
  be_value (xe7 :: a) = be_value (xe7 :: b) -> List.length a = List.length b.
Proof.
  assert (Hlt : forall a b : list byte,
             (List.length a < List.length b)%nat ->
             be_value (xe7 :: a) < be_value (xe7 :: b)).
  { clear a b. intros a b Hlen. cbn [be_value].
    change (u8 xe7) with 231.
    pose proof (be_value_range a) as Ha. pose proof (be_value_range b) as Hb.
    replace (Z.of_nat (List.length b))
      with (Z.succ (Z.of_nat (List.length b - S (List.length a)))
            + Z.of_nat (List.length a)) by lia.
    rewrite Z.pow_add_r, Z.pow_succ_r by lia.
    assert (0 < 256 ^ Z.of_nat (List.length b - S (List.length a)))
      by (apply Z.pow_pos_nonneg; lia).
    assert (0 < 256 ^ Z.of_nat (List.length a))
      by (apply Z.pow_pos_nonneg; lia).
    replace (Z.of_nat (List.length b))
      with (Z.succ (Z.of_nat (List.length b - S (List.length a)))
            + Z.of_nat (List.length a)) in Hb by lia.
    nia. }
  intros Hval.
  destruct (Nat.lt_trichotomy (List.length a) (List.length b)) as [H|[H|H]];
    [|exact H|].
  - specialize (Hlt a b H). lia.
  - specialize (Hlt b a H). lia.
Qed.

Lemma b58_value_app_zero (digits : list Z) :
  b58_value (digits ++ [0]) = b58_value digits.
Proof.
  induction digits as [|d rest IH]; cbn [app b58_value]; [reflexivity|].
  now rewrite IH.
Qed.

Lemma skip_zero_digits_value (digits : list Z) :
  b58_value (rev (skip_zero_digits digits)) = b58_value (rev digits).
Proof.
  induction digits as [|d rest IH]; [reflexivity|].
  cbn [skip_zero_digits rev].
  destruct (Z.eqb_spec d 0) as [->|]; [|reflexivity].
  now rewrite IH, b58_value_app_zero.
Qed.

Lemma skip_zero_digits_range (digits : list Z) :
  b58_digits digits -> b58_digits (skip_zero_digits digits).
Proof.
  induction 1 as [|d rest Hd Hrest IH]; cbn [skip_zero_digits];
    [constructor|].
  destruct (d =? 0); [exact IH | now constructor].
Qed.

Lemma b58_char_injective (a b : list Z) :
  b58_digits a -> b58_digits b ->
  map b58_char a = map b58_char b -> a = b.
Proof.
  intros Ha. revert b.
  induction Ha as [|x a Hx Ha IH]; intros b Hb; destruct Hb as [|y b Hy Hb];
    try discriminate; [reflexivity|].
  cbn [map]. intros [= Hc Hrest].
  assert (Hidx : forall d, 0 <= d < 58 ->
             alphabet_index base58btc_alphabet (b58_char d) = Some d).
  { intros d Hd.
    pose proof (check_below 58
      (fun d => match alphabet_index base58btc_alphabet (b58_char d) with
                | Some w => w =? d
                | None => false
                end) eq_refl d Hd) as H.
    cbn beta in H.
    destruct (alphabet_index base58btc_alphabet (b58_char d)); [|discriminate].
    apply Z.eqb_eq in H. now subst. }
  pose proof (Hidx x Hx) as Hix. rewrite Hc, (Hidx y Hy) in Hix.
  injection Hix as <-. now rewrite (IH b Hb Hrest).
Qed.

Lemma base58btc_encode_tagged_number (a b : list byte) :
  base58btc_encode (xe7 :: a) = base58btc_encode (xe7 :: b) ->
  be_value (xe7 :: a) = be_value (xe7 :: b).
Proof.
  unfold base58btc_encode.
  change (leading_zero_bytes (xe7 :: a)) with O.
  change (leading_zero_bytes (xe7 :: b)) with O.
  cbn [repeat_string skipn append].
  set (da := fold_left _ (xe7 :: a) []). set (db := fold_left _ (xe7 :: b) []).
  assert (Hda : b58_digits da) by (apply b58_fold_digits; constructor).
  assert (Hdb : b58_digits db) by (apply b58_fold_digits; constructor).
  intros Htext.
  apply (f_equal list_ascii_of_string) in Htext.
  rewrite !list_ascii_of_string_of_list_ascii in Htext.
  apply b58_char_injective in Htext;
    [|apply skip_zero_digits_range, Forall_rev; assumption ..].
  apply (f_equal (fun l => b58_value (rev l))) in Htext.
  rewrite !skip_zero_digits_value, !rev_involutive in Htext.
  unfold da, db in Htext.
  rewrite !b58_fold_number, !be_value_fold in Htext by constructor.
  cbn [b58_value] in Htext. lia.
Qed.

(** X23. [encodeDID] is injective: two public keys with the same DID are
    the same bytes. *)
Theorem encodeDID_injective :
  forall publicKey publicKey' : list byte,
    encodeDID publicKey = encodeDID publicKey' -> publicKey = publicKey'.
Proof.
  intros a b. rewrite !encodeDID_buffer. intros [= Htext].
  apply base58btc_encode_tagged_number in Htext.
  pose proof (be_value_tagged_length _ _ Htext) as Hlen.
  apply be_value_injective in Htext; [|cbn [List.length] in *; lia].
  now injection Htext.
Qed.

Lemma encodeDID_injective_witness :
  x02 :: repeat x11 32 = x02 :: repeat x11 32.
Proof. apply encodeDID_injective. reflexivity. Defined.

(** ** The local signer under the recoverable algorithm *)

(** X24. With well-formed [r] and [s] from the curve library, the
    recoverable algorithm refuses the default local signer as not supported,
    since its signature has 64 bytes; the signer made with the recoverable
    flag passes: its 65-byte text, whose byte 64 is the library's recovery
    param, is returned as it is, and it fails with the missing-recovery-param
    error when the library gives none. *)
Theorem recoverable_algorithm_needs_recoverable_signer :
  forall (collaborators : Collaborators) (privateKey : list byte)
         (payload : string) (rn sn : BN) (rp : RecoveryParam),
    keyPair_sign privateKey (sha256 (DataString payload)) = (rn, sn, rp) ->
    string_forallb is_hex (BN_toString_hex rn) = true ->
    (String.length (BN_toString_hex rn) <= 64)%nat ->
    string_forallb is_hex (BN_toString_hex sn) = true ->
    (String.length (BN_toString_hex sn) <= 64)%nat ->
    ES256KSignerAlg true payload (ES256KSigner_sign privateKey false)
    = Err NotSupportedRecoverable /\
    (rp = RPUndefined ->
     ES256KSignerAlg true payload (ES256KSigner_sign privateKey true)
     = Err MissingRecoveryParam) /\
    (rp <> RPUndefined ->
     exists bytes : list byte,
       ES256KSignerAlg true payload (ES256KSigner_sign privateKey true)
       = Ok (bytesToBase64url bytes) /\
       List.length bytes = 65%nat /\
       nth_error bytes 64 = Some (to_u8 (recoveryParam_number rp))).
Proof.
  intros collaborators privateKey payload rn sn rp Hsign Hrh Hrl Hsh Hsl.
  split; [|split].
  - destruct (ES256KSigner_sign_padded collaborators privateKey false
                (DataString payload) rn sn rp Hsign Hrh Hrl Hsh Hsl)
      as (rpad & spad & rbytes & sbytes & _ & _ & _ & Hrn & _ & Hsn & _ & Hout).
    unfold ES256KSignerAlg. rewrite (Hout eq_refl). cbn [bind].
    unfold fromJose. rewrite base64ToBytes_bytesToBase64url. cbn [bind].
    rewrite length_app, Hrn, Hsn. reflexivity.
  - intros ->.
    destruct (ES256KSigner_sign_padded collaborators privateKey true
                (DataString payload) rn sn RPUndefined Hsign Hrh Hrl Hsh Hsl)
      as (rpad & spad & rbytes & sbytes & _ & _ & Hr & Hrn & Hs & Hsn & Hrun & _).
    unfold ES256KSignerAlg. rewrite Hrun. unfold toJose.
    rewrite (toJose_bytes_recoverable
               {| r := rpad; s := spad; recoveryParam := RPUndefined |}
               rbytes sbytes Hr Hs) by lia.
    reflexivity.
  - intros Hrp.
    destruct (ES256KSigner_sign_padded collaborators privateKey true
                (DataString payload) rn sn rp Hsign Hrh Hrl Hsh Hsl)
      as (rpad & spad & rbytes & sbytes & _ & _ & Hr & Hrn & Hs & Hsn & Hrun & _).
    pose proof (jose_fields_length rbytes sbytes ltac:(lia) ltac:(lia)) as Hlen.
    exists (jose_fields rbytes sbytes ++ [to_u8 (recoveryParam_number rp)])%list.
    assert (Hnth : nth_error
                     (jose_fields rbytes sbytes
                        ++ [to_u8 (recoveryParam_number rp)]) 64
                   = Some (to_u8 (recoveryParam_number rp))).
    { rewrite nth_error_app2 by lia. now rewrite Hlen. }
    split; [|split; [rewrite length_app, Hlen; reflexivity | exact Hnth]].
    unfold ES256KSignerAlg. rewrite Hrun. unfold toJose.
    rewrite (toJose_bytes_recoverable
               {| r := rpad; s := spad; recoveryParam := rp |}
               rbytes sbytes Hr Hs) by lia.
    destruct rp as [| |n]; [contradiction| |];
      cbn [recoveryParam bind recoveryParam_number] in *;
      unfold fromJose; rewrite base64ToBytes_bytesToBase64url; cbn [bind];
      rewrite length_app, Hlen;
      cbn [List.length Nat.add Nat.ltb Nat.leb orb Nat.eqb];
      rewrite Hnth; reflexivity.
Qed.

Lemma recoverable_algorithm_needs_recoverable_signer_witness :
  ES256KSignerAlg true "input"
    (@ES256KSigner_sign fixed_collaborators (repeat x01 32) false)
  = Err NotSupportedRecoverable.
Proof.
  apply (recoverable_algorithm_needs_recoverable_signer fixed_collaborators
           (repeat x01 32) "input" 1%N 255%N (RPNumber 0) eq_refl);
    [reflexivity | simpl; lia | reflexivity | simpl; lia].
Defined.

(** ** Headers without a usable [alg] *)

(** X25. A header whose [alg] is missing or falsy (null, false, 0 or the
    empty string) is not rejected: [createJWS] sets [alg] to ["ES256K"],
    leaves every other member as it was, and builds the compact text with
    that header. *)
Theorem createJWS_replaces_falsy_alg :
  forall (payload : json) (signer : Signer) (header : object),
    js_falsy (obj_get "alg" header) = true ->
    let header' := obj_set "alg" (JStr "ES256K") header in
    obj_get "alg" header' = Some (JStr "ES256K") /\
    (forall key : string, key <> "alg" -> obj_get key header' = obj_get key header) /\
    createJWS payload signer header = createJWS payload signer header' /\
    forall compact : string,
      createJWS payload signer header = Ok compact ->
      exists entry : JWSSignature,
        jws_signatures (toGeneralJWS compact) = [entry] /\
        sig_protected entry = Some (encodeSection (JObj header')).
Proof.
  intros payload signer header Hfalsy header'.
  assert (Halg : obj_get "alg" header' = Some (JStr "ES256K"))
    by apply obj_get_set_same.
  assert (Hsame : createJWS payload signer header
                  = createJWS payload signer header').
  { unfold createJWS at 1. rewrite Hfalsy. fold header'.
    rewrite createJWS_ES256K by exact Halg. rewrite Halg. reflexivity. }
  split; [exact Halg|]. split.
  - intros key Hkey. apply obj_get_set_other. congruence.
  - split; [exact Hsame|]. intros compact. rewrite Hsame.
    rewrite createJWS_ES256K by exact Halg.
    destruct (ES256KSignerAlg false _ signer) as [signature|]; cbn [bind];
      [|discriminate].
    intros [= <-]. rewrite append_assoc.
    apply toGeneralJWS_protected, encodeSection_no_dot.
Qed.

Lemma createJWS_replaces_falsy_alg_witness :
  createJWS (JObj []) fixed_signer [("alg", JNull); ("typ", JStr "JWT")]
  = createJWS (JObj []) fixed_signer [("alg", JStr "ES256K"); ("typ", JStr "JWT")].
Proof.
  apply (createJWS_replaces_falsy_alg (JObj []) fixed_signer
           [("alg", JNull); ("typ", JStr "JWT")] eq_refl).
Defined.

(** ** String payloads with a dot *)

(** X26. [did_createJWS] passes a string payload on as it is, and
    [toGeneralJWS] cuts the compact text at its dots: for a string payload
    of two dot-free parts joined by a dot, the answer's payload is the first
    part and its signature is the second part of the payload, the signer's
    signature being dropped. *)
Theorem did_createJWS_dotted_payload_shifts_signature :
  forall (collaborators : Collaborators) (context : Context)
         (params : CreateJWSParams) (first second : string)
         (answer : CreateJWSResult),
    params_payload params = JStr (first ++ "." ++ second) ->
    count_char "." first = O ->
    count_char "." second = O ->
    did_createJWS context params = Ok answer ->
    jws answer
    = {| jws_payload := Some first;
         jws_signatures :=
           [ {| sig_protected :=
                  Some (encodeSection
                          (JObj (sign_header (did context)
                                   (params_protected params))));
                sig_signature := Some second |} ] |}.
Proof.
  intros collaborators context params first second answer Hpayload Hf Hs.
  unfold did_createJWS.
  destruct (negb _); [discriminate|].
  rewrite sign_run, Hpayload. cbv zeta.
  fold (sign_header (did context) (params_protected params)).
  destruct (ES256KSigner (secretKey context) false) as [signer|]; cbn [bind];
    [|discriminate].
  destruct (ES256KSignerAlg false _ signer) as [signature|]; cbn [bind];
    [|discriminate].
  intros [= <-]. cbn [jws]. unfold toGeneralJWS.
  set (header := encodeSection _).
  change ((header ++ "." ++ first ++ "." ++ second) ++ "." ++ signature)
    with ((header ++ String "." (first ++ String "." second))
            ++ String "." signature).
  rewrite append_assoc. cbn [append]. rewrite append_assoc. cbn [append].
  rewrite split_append by apply encodeSection_no_dot.
  rewrite split_append by exact Hf.
  rewrite split_append by exact Hs.
  reflexivity.
Qed.

Lemma did_createJWS_dotted_payload_shifts_signature_witness :
  match @did_createJWS fixed_collaborators
          {| did := "did:key:zABC"; secretKey := repeat x01 32 |}
          {| params_did := "did:key:zABC";
             params_payload := JStr ("a" ++ "." ++ "b");
             params_protected := None |}
  with
  | Ok answer => map sig_signature (jws_signatures (jws answer)) = [Some "b"]
  | Err _ => False
  end.
Proof.
  destruct (@did_createJWS fixed_collaborators
              {| did := "did:key:zABC"; secretKey := repeat x01 32 |}
              {| params_did := "did:key:zABC";
                 params_payload := JStr ("a" ++ "." ++ "b");
                 params_protected := None |}) as [answer|e] eqn:E.
  - rewrite (did_createJWS_dotted_payload_shifts_signature fixed_collaborators
               {| did := "did:key:zABC"; secretKey := repeat x01 32 |}
               {| params_did := "did:key:zABC";
                  params_payload := JStr ("a" ++ "." ++ "b");
                  params_protected := None |} "a" "b" answer
               eq_refl eq_refl eq_refl E).
    reflexivity.
  - vm_compute in E. discriminate E.
Defined.
